(** * UK visa cost calculator: a shallow embedding of [js/calculator.js]
      and [scripts/validate.js], with the properties of the specification.

    Numbers.  The calculator works on JavaScript numbers.  Amounts are
    modelled as exact rationals ([Q]): the fee tables hold whole pounds,
    head counts and months are integers, and the only fractional factor is
    [0.5], so every product and sum the calculator forms is a multiple of
    one half far below 2^53, where double arithmetic is exact.  Integer
    inputs ([applicants], [dependants], [duration]) are [Z]; [parseInt] is
    the identity on them.

    Objects.  A JSON field that may be absent or [null] is an [option];
    the fee table, a JSON object indexed by key, is a [gmap string Fee]. *)

From Stdlib Require Import ZArith QArith Qround Ascii.
From stdpp Require Import base option list strings pretty gmap.

Local Open Scope string_scope.

(** ** JavaScript values and coercions used by the sources *)

Module JS.

(** What a call can end in: a value, or a thrown exception.
    [Error msg] is [new Error(msg)]; [TypeError] is what reading a
    property of [undefined] raises. *)
Inductive exn : Type :=
| Error (msg : string)
| TypeError.

Inductive outcome (A : Type) : Type :=
| Return (a : A)
| Throw (e : exn).
Arguments Return {A} a.
Arguments Throw {A} e.

Definition bind {A B} (m : outcome A) (k : A -> outcome B) : outcome B :=
  match m with
  | Return a => k a
  | Throw e => Throw e
  end.

(** A number-or-null field of a JSON object. *)
Definition num_or_null : Type := option Q.

(** [ToNumber]: [null] coerces to [0] in an arithmetic expression. *)
Definition to_number (v : num_or_null) : Q :=
  match v with
  | Some q => q
  | None => 0%Q
  end.

(** [ToBoolean] on a number-or-null: [null] and [0] are falsy. *)
Definition truthy (v : num_or_null) : bool :=
  match v with
  | Some q => negb (Qeq_bool q 0)
  | None => false
  end.

(** [v !== null]. *)
Definition not_null (v : num_or_null) : bool :=
  match v with
  | Some _ => true
  | None => false
  end.

(** [a || b]. *)
Definition or_else (a b : num_or_null) : num_or_null :=
  if truthy a then a else b.

(** [ToBoolean] on a string: only the empty string is falsy. *)
Definition truthy_string (s : string) : bool :=
  match s with
  | EmptyString => false
  | String _ _ => true
  end.

(** [x < y] on numbers. *)
Definition ltb (x y : Q) : bool := negb (Qle_bool y x).

(** [String.prototype.includes]: [needle] occurs in [s] at some offset. *)
Fixpoint includes (s needle : string) : bool :=
  String.prefix needle s
  || match s with
     | EmptyString => false
     | String _ s' => includes s' needle
     end.

(** [Array.prototype.includes] on an array of strings. *)
Definition array_includes (l : list string) (x : string) : bool :=
  bool_decide (x ∈ l).

(** [Math.ceil(m / d)] for an integer [m]. *)
Definition ceil_div (m : Z) (d : Q) : Z := Qceiling (inject_Z m / d).

(** A template literal's rendering of an integer. *)
Definition show (n : Z) : string := pretty n.

End JS.

Notation "'let!' x ':=' m 'in' k" := (JS.bind m (fun x => k))
  (at level 10, x name, m at level 100, k at level 200).

(** ** The static tables (data/routes.json, data/fees.json, data/rules.json) *)

Record Fee : Type := mkFee {
  amount_inside_uk : JS.num_or_null;
  amount_outside_uk : JS.num_or_null
}.

(** A route object.  Fields the sources test for absence are options;
    [None] is [undefined].  [extras_supported] is read without a test and is
    taken to be present. *)
Record Route : Type := mkRoute {
  route_id : option string;
  name : option string;
  category : option string;
  indexable : option bool;
  apply_from_options : option string;
  duration_policy : option string;
  ihs_policy : option string;
  fee_items : option (list string);
  extras_supported : list string;
  last_reviewed : option string
}.

Record IhsRate : Type := mkIhsRate { rate_per_year : Q }.
Record IhsRates : Type := mkIhsRates { standard : IhsRate; student : IhsRate }.
Record Rules : Type := mkRules { ihs_rates : IhsRates }.

(** ** js/calculator.js *)

Module Calculator.
Import JS.

(** The [Calculator] object after [init]: its three loaded tables. *)
Record t : Type := mk {
  routes : list Route;
  fees : gmap string Fee;
  rules : Rules
}.

(** The argument of [calculate].  The four fields with a destructuring
    default are options; [None] is an omitted field. *)
Record Params : Type := mkParams {
  routeId : string;
  applyFrom : string;
  duration : Z;
  applicants : option Z;
  dependants : option Z;
  addPriority : option bool;
  addSuperPriority : option bool
}.

Record LineItem : Type := mkItem { item : string; amount : Q }.

Record Result : Type := mkResult {
  breakdown : list LineItem;
  total : Q;
  lastReviewed : option string
}.

(** [applicants = 1], [dependants = 0], [addPriority = false],
    [addSuperPriority = false]. *)
Definition applicants_of (p : Params) : Z := default 1%Z (applicants p).
Definition dependants_of (p : Params) : Z := default 0%Z (dependants p).
Definition addPriority_of (p : Params) : bool := default false (addPriority p).
Definition addSuperPriority_of (p : Params) : bool :=
  default false (addSuperPriority p).

(** [parseInt(applicants) + parseInt(dependants)]. *)
Definition heads (applicants dependants : Z) : Z := (applicants + dependants)%Z.
Definition totalApplicants (p : Params) : Z :=
  heads (applicants_of p) (dependants_of p).

(** [getFeeKey(route, applyFrom)]; [None] is the [null] it returns for a
    missing or empty [fee_items]. *)
Definition getFeeKey (route : Route) (applyFrom : string) : option string :=
  match fee_items route with
  | None => None
  | Some feeItems =>
      match head feeItems with
      | None => None
      | Some first =>
          if String.eqb applyFrom "inside_uk"
          then Some (default first (find (fun f => includes f "inside") feeItems))
          else Some (default first (find (fun f => includes f "outside") feeItems))
      end
  end.

(** [getFeeAmount(feeKey, applyFrom)]. *)
Definition getFeeAmount (c : t) (feeKey applyFrom : string) : num_or_null :=
  match fees c !! feeKey with
  | None => Some 0%Q
  | Some fee =>
      if String.eqb applyFrom "inside_uk" && not_null (amount_inside_uk fee)
      then amount_inside_uk fee
      else if String.eqb applyFrom "outside_uk"
              && not_null (amount_outside_uk fee)
      then amount_outside_uk fee
      else JS.or_else (JS.or_else (amount_inside_uk fee) (amount_outside_uk fee))
             (Some 0%Q)
  end.

(** [getPriorityFee(applyFrom)]: reading a field of a missing entry throws. *)
Definition getPriorityFee (c : t) (applyFrom : string) : outcome num_or_null :=
  match fees c !! "priority" with
  | None => Throw TypeError
  | Some fee =>
      Return (if String.eqb applyFrom "inside_uk"
              then amount_inside_uk fee else amount_outside_uk fee)
  end.

(** [getSuperPriorityFee(applyFrom)]. *)
Definition getSuperPriorityFee (c : t) (applyFrom : string) : outcome num_or_null :=
  match fees c !! "super_priority" with
  | None => Throw TypeError
  | Some fee =>
      Return (if String.eqb applyFrom "inside_uk"
              then amount_inside_uk fee else amount_outside_uk fee)
  end.

(** [Math.ceil(durationMonths / 6) * 0.5]. *)
Definition years (durationMonths : Z) : Q :=
  (inject_Z (ceil_div durationMonths 6) * (1 # 2))%Q.

(** [calculateIHS(route, durationMonths, applicants, dependants)]. *)
Definition calculateIHS (c : t) (route : Route) (durationMonths : Z)
    (applicants dependants : Z) : Q :=
  let rate :=
    if bool_decide (ihs_policy route = Some "required_student")
    then rate_per_year (student (ihs_rates (rules c)))
    else rate_per_year (standard (ihs_rates (rules c))) in
  let years := years durationMonths in
  let totalApplicants := heads applicants dependants in
  (rate * years * inject_Z totalApplicants)%Q.

(** The two locals [breakdown] and [total] of [calculate]. *)
Record acc : Type := mkAcc { acc_breakdown : list LineItem; acc_total : Q }.

(** [breakdown.push({item, amount}); total += amount]. *)
Definition push (label : string) (cost : Q) (a : acc) : acc :=
  {| acc_breakdown := acc_breakdown a ++ [mkItem label cost];
     acc_total := (acc_total a + cost)%Q |}.

Definition application_label (totalApplicants : Z) : string :=
  "Application Fee (" +:+ show totalApplicants +:+ " applicant"
    +:+ (if (1 <? totalApplicants)%Z then "s" else "") +:+ ")".

(** Lines 50-62: the application fee. *)
Definition application_step (c : t) (route : Route) (p : Params) (a : acc) : acc :=
  match getFeeKey route (applyFrom p) with
  | Some feeKey =>
      if truthy_string feeKey && bool_decide (is_Some (fees c !! feeKey))
      then
        let feeAmount := getFeeAmount c feeKey (applyFrom p) in
        let totalApplicants := totalApplicants p in
        let applicationCost := (to_number feeAmount * inject_Z totalApplicants)%Q in
        push (application_label totalApplicants) applicationCost a
      else a
  | None => a
  end.

(** Lines 64-74: the Immigration Health Surcharge. *)
Definition ihs_step (c : t) (route : Route) (p : Params) (a : acc) : acc :=
  if bool_decide (ihs_policy route <> Some "not_required")
     && bool_decide (ihs_policy route <> Some "exempt")
  then
    let ihsCost :=
      calculateIHS c route (duration p) (applicants_of p) (dependants_of p) in
    if JS.ltb 0 ihsCost
    then push "Immigration Health Surcharge" ihsCost a
    else a
  else a.

(** Lines 76-84: the priority service. *)
Definition priority_step (c : t) (route : Route) (p : Params) (a : acc)
    : outcome acc :=
  if addPriority_of p && array_includes (extras_supported route) "priority"
  then
    let! fee := getPriorityFee c (applyFrom p) in
    let priorityCost := (to_number fee * inject_Z (totalApplicants p))%Q in
    Return (push "Priority Service" priorityCost a)
  else Return a.

(** Lines 86-93: the super priority service. *)
Definition super_priority_step (c : t) (route : Route) (p : Params) (a : acc)
    : outcome acc :=
  if addSuperPriority_of p
     && array_includes (extras_supported route) "super_priority"
  then
    let! fee := getSuperPriorityFee c (applyFrom p) in
    let superPriorityCost := (to_number fee * inject_Z (totalApplicants p))%Q in
    Return (push "Super Priority Service" superPriorityCost a)
  else Return a.

(** Lines 95-103: the citizenship ceremony. *)
Definition ceremony_step (c : t) (route : Route) (p : Params) (a : acc)
    : outcome acc :=
  if array_includes (extras_supported route) "citizenship_ceremony"
  then
    match fees c !! "citizenship_ceremony" with
    | None => Throw TypeError
    | Some fee =>
        let ceremonyCost :=
          (to_number (amount_inside_uk fee) * inject_Z (totalApplicants p))%Q in
        Return (push "Citizenship Ceremony" ceremonyCost a)
    end
  else Return a.

(** Lines 105-113: the Life in the UK test. *)
Definition life_in_uk_step (p : Params) (a : acc) : acc :=
  if includes (routeId p) "indefinite-leave" || includes (routeId p) "citizenship"
  then
    let testCost := (50 * inject_Z (totalApplicants p))%Q in
    push "Life in the UK Test" testCost a
  else a.

(** [this.routes.find(r => r.route_id === routeId)]. *)
Definition find_route (c : t) (routeId : string) : option Route :=
  find (fun r => bool_decide (route_id r = Some routeId)) (routes c).

(** [calculate(params)]. *)
Definition calculate (c : t) (p : Params) : outcome Result :=
  match find_route c (routeId p) with
  | None => Throw (Error "Route not found")
  | Some route =>
      let a0 := mkAcc [] 0%Q in
      let a1 := application_step c route p a0 in
      let a2 := ihs_step c route p a1 in
      let! a3 := priority_step c route p a2 in
      let! a4 := super_priority_step c route p a3 in
      let! a5 := ceremony_step c route p a4 in
      let a6 := life_in_uk_step p a5 in
      Return {| breakdown := acc_breakdown a6;
                total := acc_total a6;
                lastReviewed := last_reviewed route |}
  end.

End Calculator.

(** ** scripts/validate.js *)

Module Validate.

(** What [loadJSON] finds at a path: a document that parses, or a read or
    parse failure with its message. *)
Inductive file (A : Type) : Type :=
| Parsed (v : A)
| Unparseable (message : string).
Arguments Parsed {A} v.
Arguments Unparseable {A} message.

(** What the script reads from its surroundings. *)
Record env : Type := mkEnv {
  dirname : string;
  routes_json : file (list Route);
  fees_json : file (gmap string Fee);
  rules_json : file Rules;
  existsSync : string -> bool
}.

(** The two counters, and the lines written by [console.error] and
    [console.warn] (colour codes and quotation marks left out). *)
Record state : Type := mkState {
  errors : nat;
  warnings : nat;
  stderr : list string
}.

Definition initial : state := mkState 0 0 [].

Definition error (msg : string) (st : state) : state :=
  {| errors := S (errors st);
     warnings := warnings st;
     stderr := stderr st ++ ["ERROR: " +:+ msg] |}.

Definition warn (msg : string) (st : state) : state :=
  {| errors := errors st;
     warnings := S (warnings st);
     stderr := stderr st ++ ["WARNING: " +:+ msg] |}.

(** [loadJSON(filePath)]: [None] is the [null] returned on failure. *)
Definition loadJSON {A} (filePath : string) (f : file A) (st : state)
    : option A * state :=
  match f with
  | Parsed v => (Some v, st)
  | Unparseable message =>
      (None, error ("Failed to parse " +:+ filePath +:+ ": " +:+ message) st)
  end.

(** A template literal's rendering of a possibly absent string field. *)
Definition show_id (id : option string) : string := default "undefined" id.

(** [routeIds.indexOf(id)], [-1] when absent. *)
Fixpoint indexOf (l : list (option string)) (id : option string) : Z :=
  match l with
  | [] => (-1)%Z
  | x :: l' =>
      if bool_decide (x = id) then 0%Z
      else let i := indexOf l' id in
           if (i <? 0)%Z then (-1)%Z else (i + 1)%Z
  end.

(** [array.filter((x, index) => keep(x, index))], counting from [index]. *)
Fixpoint filter_indexed {A} (keep : A -> Z -> bool) (index : Z) (l : list A)
    : list A :=
  match l with
  | [] => []
  | x :: l' =>
      if keep x index
      then x :: filter_indexed keep (index + 1)%Z l'
      else filter_indexed keep (index + 1)%Z l'
  end.

(** Step 2: [routeIds.filter((id, index) => routeIds.indexOf(id) !== index)]. *)
Definition duplicates (routeIds : list (option string)) : list (option string) :=
  filter_indexed (fun id index => negb (indexOf routeIds id =? index)%Z)
    0%Z routeIds.

Definition check_unique (routes : list Route) (st : state) : state :=
  let routeIds := map route_id routes in
  let duplicates := duplicates routeIds in
  if (0 <? length duplicates)%nat
  then error ("Duplicate route_ids found: "
              +:+ String.concat ", " (map show_id duplicates)) st
  else st.

(** Step 3: the messages pushed to [missingFees]. *)
Definition missingFees (routes : list Route) (fees : gmap string Fee)
    : list string :=
  flat_map (fun route =>
    match fee_items route with
    | Some feeItems =>
        flat_map (fun feeKey =>
          if bool_decide (is_Some (fees !! feeKey)) then []
          else ["Route " +:+ show_id (route_id route)
                +:+ " references missing fee " +:+ feeKey]) feeItems
    | None => []
    end) routes.

Definition check_fee_refs (routes : list Route) (fees : gmap string Fee)
    (st : state) : state :=
  fold_left (fun st msg => error msg st) (missingFees routes fees) st.

(** Step 4. *)
Definition requiredFields : list string :=
  ["route_id"; "name"; "category"; "indexable"; "apply_from_options";
   "duration_policy"; "ihs_policy"].

(** [route[field] === undefined]. *)
Definition field_undefined (route : Route) (field : string) : bool :=
  if String.eqb field "route_id" then bool_decide (route_id route = None)
  else if String.eqb field "name" then bool_decide (name route = None)
  else if String.eqb field "category" then bool_decide (category route = None)
  else if String.eqb field "indexable" then bool_decide (indexable route = None)
  else if String.eqb field "apply_from_options"
    then bool_decide (apply_from_options route = None)
  else if String.eqb field "duration_policy"
    then bool_decide (duration_policy route = None)
  else if String.eqb field "ihs_policy" then bool_decide (ihs_policy route = None)
  else true.

Definition check_required (routes : list Route) (st : state) : state :=
  fold_left (fun st route =>
    fold_left (fun st field =>
      if field_undefined route field
      then error ("Route " +:+ show_id (route_id route)
                  +:+ " missing required field: " +:+ field) st
      else st) requiredFields st) routes st.

(** Step 5. *)
Definition contentPath (e : env) (route : Route) : string :=
  dirname e +:+ "/../content/routes/" +:+ show_id (route_id route) +:+ ".json".

Definition check_content (e : env) (routes : list Route) (st : state) : state :=
  let indexableRoutes :=
    filter (fun r => indexable r = Some true) routes in
  fold_left (fun st route =>
    if existsSync e (contentPath e route) then st
    else warn ("Indexable route " +:+ show_id (route_id route)
               +:+ " missing content file: " +:+ contentPath e route) st)
    indexableRoutes st.

(** Step 6: the argument of the final [process.exit]. *)
Definition summary (st : state) : Z :=
  if (errors st =? 0)%nat && (warnings st =? 0)%nat
  then 0%Z
  else if (0 <? errors st)%nat then 1%Z else 0%Z.

(** The whole script: the status it exits with and the final counters. *)
Definition run (e : env) : Z * state :=
  let st := initial in
  let '(routes, st) :=
    loadJSON (dirname e +:+ "/../data/routes.json") (routes_json e) st in
  let '(fees, st) :=
    loadJSON (dirname e +:+ "/../data/fees.json") (fees_json e) st in
  let '(rules, st) :=
    loadJSON (dirname e +:+ "/../data/rules.json") (rules_json e) st in
  match routes, fees, rules with
  | Some routes, Some fees, Some _ =>
      let st := check_unique routes st in
      let st := check_fee_refs routes fees st in
      let st := check_required routes st in
      let st := check_content e routes st in
      (summary st, st)
  | _, _, _ =>
      let st :=
        error "One or more JSON files failed to parse. Aborting validation." st in
      (1%Z, st)
  end.

End Validate.

(** ** js/data-loader.js *)

Module DataLoader.
Import JS.

(** [(path.match(/\//g) || []).length]: the number of slashes in [path]. *)
Fixpoint count_slashes (path : string) : Z :=
  match path with
  | EmptyString => 0%Z
  | String a path' =>
      ((if Ascii.eqb a "/" then 1 else 0) + count_slashes path')%Z
  end.

(** [String.prototype.endsWith]: some tail of [s] is [suffix]. *)
Fixpoint endsWith (s suffix : string) : bool :=
  String.eqb s suffix
  || match s with
     | EmptyString => false
     | String _ s' => endsWith s' suffix
     end.

(** [getBasePath()], as a function of [window.location.pathname]. *)
Definition getBasePath (pathname : string) : string :=
  let path := pathname in
  let depth := (count_slashes path - 1)%Z in
  if (depth =? 0)%Z || String.eqb path "/" then "./"
  else if (depth =? 1)%Z && endsWith path "/" then "../"
  else if (depth =? 2)%Z && endsWith path "/" then "../../"
  else if (depth =? 3)%Z && endsWith path "/" then "../../../"
  else "./".

(** [resolvePath(path)]. *)
Definition resolvePath (pathname path : string) : string :=
  getBasePath pathname +:+ path.

(** [load], [clearCache] and the getters, for documents of a type [A] with
    their JavaScript truth value.  A call is run to completion: what another
    call does while this one awaits the network is not modelled. *)
Section Load.
Context {A : Type} (truthy : A -> bool).

(** What [fetch(url)] settles to: a rejection, or a response with its [ok]
    flag and status whose [json()] returns a document or throws. *)
Inductive response : Type :=
| Rejects (e : exn)
| Responds (ok : bool) (status : Z) (json : outcome A).

(** The loader's [cache], with the requests sent to the network and the
    errors written by [console.error], oldest first. *)
Record state : Type := mkState {
  cache : gmap string A;
  fetched : list string;
  logged : list exn
}.

Definition initial : state := mkState ∅ [] [].

(** The [catch] block: log and rethrow. *)
Definition fails (e : exn) (st : state) : outcome A * state :=
  (Throw e, {| cache := cache st; fetched := fetched st;
               logged := logged st ++ [e] |}).

(** The [try] block of [load], entered on a cache miss. *)
Definition fetch_and_store (net : string -> response) (url : string)
    (st : state) : outcome A * state :=
  let st := {| cache := cache st; fetched := fetched st ++ [url];
               logged := logged st |} in
  match net url with
  | Rejects e => fails e st
  | Responds ok status json =>
      if negb ok
      then fails (Error ("Failed to load " +:+ url +:+ ": " +:+ show status)) st
      else match json with
           | Throw e => fails e st
           | Return data =>
               (Return data,
                {| cache := <[url := data]> (cache st);
                   fetched := fetched st; logged := logged st |})
           end
  end.

(** [load(url)]. *)
Definition load (net : string -> response) (url : string) (st : state)
    : outcome A * state :=
  match cache st !! url with
  | Some data =>
      if truthy data then (Return data, st) else fetch_and_store net url st
  | None => fetch_and_store net url st
  end.

(** [clearCache()]. *)
Definition clearCache (st : state) : state :=
  {| cache := ∅; fetched := fetched st; logged := logged st |}.

End Load.

Arguments Rejects {A} e.
Arguments Responds {A} ok status json.

(** [getRoutes()]: the routes document is an array, which is truthy. *)
Definition getRoutes (pathname : string) (net : string -> response)
    (st : state) : outcome (list Route) * state :=
  load (fun _ => true) net (resolvePath pathname "data/routes.json") st.

(** [getRouteById(routeId)]; [None] is the [null] of [find(...) || null]. *)
Definition getRouteById (pathname : string) (net : string -> response)
    (routeId : string) (st : state) : outcome (option Route) * state :=
  let '(routes, st) := getRoutes pathname net st in
  (let! routes := routes in
   Return (find (fun r => bool_decide (route_id r = Some routeId)) routes), st).

(** [getRoutesByCategory(category)], the argument renamed to [wanted]. *)
Definition getRoutesByCategory (pathname : string) (net : string -> response)
    (wanted : string) (st : state) : outcome (list Route) * state :=
  let '(routes, st) := getRoutes pathname net st in
  (let! routes := routes in
   Return (List.filter (fun r => bool_decide (category r = Some wanted)) routes),
   st).

(** [getIndexableRoutes()]. *)
Definition getIndexableRoutes (pathname : string) (net : string -> response)
    (st : state) : outcome (list Route) * state :=
  let '(routes, st) := getRoutes pathname net st in
  (let! routes := routes in
   Return (List.filter (fun r => bool_decide (indexable r = Some true)) routes), st).

End DataLoader.

(** ** js/calculator.js: the form *)

Module Form.
Import JS Calculator.

(** [parseInt(string)] without a radix, on a string whose leading white
    space is ASCII: skip white space, read a sign, switch to radix 16 after
    [0x], and read digits up to the first character that is none.  [None]
    is [NaN]; the integer read is exact (no rounding to a double). *)
Definition is_white_space (a : ascii) : bool :=
  let n := nat_of_ascii a in
  ((9 <=? n)%nat && (n <=? 13)%nat) || (n =? 32)%nat.

Fixpoint trim_start (s : string) : string :=
  match s with
  | EmptyString => EmptyString
  | String a s' => if is_white_space a then trim_start s' else s
  end.

Definition digit_value (radix : Z) (a : ascii) : option Z :=
  let n := Z.of_nat (nat_of_ascii a) in
  let v :=
    if (48 <=? n)%Z && (n <=? 57)%Z then Some (n - 48)%Z
    else if (97 <=? n)%Z && (n <=? 122)%Z then Some (n - 87)%Z
    else if (65 <=? n)%Z && (n <=? 90)%Z then Some (n - 55)%Z
    else None in
  match v with
  | Some d => if (d <? radix)%Z then Some d else None
  | None => None
  end.

Fixpoint read_digits (radix : Z) (s : string) (acc : option Z) : option Z :=
  match s with
  | EmptyString => acc
  | String a s' =>
      match digit_value radix a with
      | Some d => read_digits radix s' (Some (default 0%Z acc * radix + d)%Z)
      | None => acc
      end
  end.

Definition parseInt (s : string) : option Z :=
  let s := trim_start s in
  let '(sign, s) :=
    match s with
    | String "-" s' => ((-1)%Z, s')
    | String "+" s' => (1%Z, s')
    | _ => (1%Z, s)
    end in
  let '(radix, s) :=
    match s with
    | String "0" (String "x" s') => (16%Z, s')
    | String "0" (String "X" s') => (16%Z, s')
    | _ => (10%Z, s)
    end in
  match read_digits radix s None with
  | Some n => Some (sign * n)%Z
  | None => None
  end.

(** [parseInt(input?.value || dflt)]: an absent element and an empty value
    give [parseInt(dflt)]. *)
Definition parse_value (value : option string) (dflt : Z) : option Z :=
  match value with
  | Some (String _ _ as s) => parseInt s
  | _ => parseInt (show dflt)
  end.

(** [isNaN(x) || x < bound] and [isNaN(x) || x < lo || x > hi]. *)
Definition below (x : option Z) (bound : Z) : bool :=
  match x with
  | None => true
  | Some n => (n <? bound)%Z
  end.

Definition outside (x : option Z) (lo hi : Z) : bool :=
  match x with
  | None => true
  | Some n => (n <? lo)%Z || (hi <? n)%Z
  end.

(** What [handleCalculate] reads from the document: the value of each input
    and the state of each checkbox; [None] is an element that is not there. *)
Record dom : Type := mkDom {
  apply_from_value : option string;
  duration_value : option string;
  applicants_value : option string;
  dependants_value : option string;
  add_priority_checked : option bool;
  add_super_priority_checked : option bool
}.

(** What [handleCalculate] hands to the page: the list of messages, or the
    outcome of [calculate] (whose result goes to [displayResult]). *)
Inductive handled : Type :=
| Rejected (errors : list string)
| Calculated (params : Params) (o : outcome Result).

(** [handleCalculate(routeId)]. *)
Definition handleCalculate (c : Calculator.t) (routeId : string) (d : dom)
    : handled :=
  let applyFrom := apply_from_value d in
  let durationInput := duration_value d in
  let duration := parse_value durationInput 0 in
  let applicants := parse_value (applicants_value d) 1 in
  let dependants := parse_value (dependants_value d) 0 in
  let errors : list string := [] in
  let errors :=
    if negb (truthy_string (default "" applyFrom))
    then (errors ++ ["Please select where you are applying from."])%list
    else errors in
  let errors :=
    if bool_decide (is_Some durationInput) && below duration 1
    then (errors ++ ["Please enter a valid visa duration (at least 1 month)."])%list
    else errors in
  let errors :=
    if outside applicants 1 10
    then (errors ++ ["Number of main applicants must be between 1 and 10."])%list
    else errors in
  let errors :=
    if outside dependants 0 10
    then (errors ++ ["Number of dependants must be between 0 and 10."])%list
    else errors in
  if (0 <? length errors)%nat
  then Rejected errors
  else
    let params :=
      {| Calculator.routeId := routeId;
         Calculator.applyFrom := default "" applyFrom;
         Calculator.duration := default 0%Z duration;
         Calculator.applicants := applicants;
         Calculator.dependants := dependants;
         Calculator.addPriority := Some (default false (add_priority_checked d));
         Calculator.addSuperPriority :=
           Some (default false (add_super_priority_checked d)) |} in
    Calculated params (calculate c params).

(** A route object with the two fields that only [renderForm] reads. *)
Record RouteEntry : Type := mkEntry {
  entry_route : Route;
  duration_options : option (list Z);
  max_duration_months : option Z
}.

(** [route.max_duration_months || 60]. *)
Definition max_or_60 (entry : RouteEntry) : Z :=
  match max_duration_months entry with
  | Some m => if (m =? 0)%Z then 60%Z else m
  | None => 60%Z
  end.

(** The controls [renderForm] writes into the page. *)
Inductive control : Type :=
| Hidden (value : string)
| Select (options : list string)
| NumberInput (min max value : string)
| Checkbox.

Record form : Type := mkForm {
  apply_from : control;
  duration_control : option control;
  applicants_control : control;
  dependants_control : control;
  add_priority : option control;
  add_super_priority : option control
}.

(** [renderForm(routeId, containerId)] for a container that exists; [None]
    is the page without a form that an unknown identifier gets. *)
Definition renderForm (routes : list RouteEntry) (routeId : string)
    : option form :=
  match find (fun r => bool_decide (route_id (entry_route r) = Some routeId))
             routes with
  | None => None
  | Some entry =>
      let route := entry_route entry in
      Some
        {| apply_from :=
             if bool_decide (apply_from_options route = Some "both")
             then Select ["outside_uk"; "inside_uk"]
             else Hidden (default "undefined" (apply_from_options route));
           duration_control :=
             match (if bool_decide (duration_policy route = Some "fixed")
                    then duration_options entry else None) with
             | Some options => Some (Select (map show options))
             | None =>
                 if bool_decide (duration_policy route = Some "custom")
                 then Some (NumberInput "1" (show (max_or_60 entry)) "12")
                 else if bool_decide (duration_policy route = Some "permanent")
                 then Some (Hidden "0")
                 else None
             end;
           applicants_control := NumberInput "1" "10" "1";
           dependants_control := NumberInput "0" "10" "0";
           add_priority :=
             if array_includes (extras_supported route) "priority"
             then Some Checkbox else None;
           add_super_priority :=
             if array_includes (extras_supported route) "super_priority"
             then Some Checkbox else None |}
  end.

(** The values a control can hold when the form is submitted: a hidden input
    keeps its value, a select holds one of its options (the empty string
    when it has none), a number input holds what was typed. *)
Definition holds (ctl : control) (value : string) : Prop :=
  match ctl with
  | Hidden v => value = v
  | Select options => In value options \/ (options = [] /\ value = "")
  | NumberInput _ _ _ => True
  | Checkbox => True
  end.

Definition holds_opt (ctl : option control) (value : option string) : Prop :=
  match ctl, value with
  | Some ctl, Some value => holds ctl value
  | None, None => True
  | _, _ => False
  end.

(** The document shows the form: it has the form's controls and no others. *)
Definition shows (f : form) (d : dom) : Prop :=
  holds_opt (Some (apply_from f)) (apply_from_value d)
  /\ holds_opt (duration_control f) (duration_value d)
  /\ holds_opt (Some (applicants_control f)) (applicants_value d)
  /\ holds_opt (Some (dependants_control f)) (dependants_value d)
  /\ (is_Some (add_priority f) <-> is_Some (add_priority_checked d))
  /\ (is_Some (add_super_priority f) <-> is_Some (add_super_priority_checked d)).

(** The calculator whose [routes] are these entries. *)
Definition calculator_of (routes : list RouteEntry) (fees : gmap string Fee)
    (rules : Rules) : Calculator.t :=
  Calculator.mk (map entry_route routes) fees rules.

End Form.

(** ** Sample tables, used to run the definitions on concrete requests *)

Module Sample.
Import Calculator.

Definition skilled_worker : Route :=
  {| route_id := Some "skilled-worker-visa";
     name := Some "Skilled Worker visa";
     category := Some "work";
     indexable := Some true;
     apply_from_options := Some "both";
     duration_policy := Some "custom";
     ihs_policy := Some "required";
     fee_items := Some ["skilled_worker_outside"; "skilled_worker_inside"];
     extras_supported := ["priority"; "super_priority"];
     last_reviewed := Some "2024-01-15" |}.

Definition student : Route :=
  {| route_id := Some "student-visa";
     name := Some "Student visa";
     category := Some "study";
     indexable := Some true;
     apply_from_options := Some "both";
     duration_policy := Some "custom";
     ihs_policy := Some "required_student";
     fee_items := Some ["student"];
     extras_supported := ["priority"];
     last_reviewed := Some "2024-01-15" |}.

Definition visitor : Route :=
  {| route_id := Some "standard-visitor-visa";
     name := Some "Standard Visitor visa";
     category := Some "visit";
     indexable := Some true;
     apply_from_options := Some "outside_uk";
     duration_policy := Some "fixed";
     ihs_policy := Some "not_required";
     fee_items := Some ["visitor"];
     extras_supported := [];
     last_reviewed := Some "2024-01-15" |}.

Definition citizenship : Route :=
  {| route_id := Some "british-citizenship";
     name := Some "British citizenship";
     category := Some "settlement";
     indexable := Some false;
     apply_from_options := Some "inside_uk";
     duration_policy := Some "permanent";
     ihs_policy := Some "exempt";
     fee_items := Some ["naturalisation"];
     extras_supported := ["citizenship_ceremony"];
     last_reviewed := None |}.

Definition fee_table : gmap string Fee :=
  list_to_map
    [("skilled_worker_outside", mkFee None (Some 719%Q));
     ("skilled_worker_inside", mkFee (Some 827%Q) None);
     ("student", mkFee (Some 490%Q) (Some 490%Q));
     ("visitor", mkFee None (Some 115%Q));
     ("naturalisation", mkFee (Some 1500%Q) None);
     ("priority", mkFee (Some 500%Q) (Some 250%Q));
     ("super_priority", mkFee (Some 1000%Q) (Some 956%Q));
     ("citizenship_ceremony", mkFee (Some 80%Q) (Some 9000%Q))].

Definition rule_table : Rules :=
  mkRules (mkIhsRates (mkIhsRate 1035%Q) (mkIhsRate 776%Q)).

Definition calc : Calculator.t :=
  Calculator.mk [skilled_worker; student; visitor; citizenship]
                fee_table rule_table.

(** The same calculator with one entry deleted from the fee table. *)
Definition calc_without (key : string) : Calculator.t :=
  Calculator.mk (routes calc) (delete key fee_table) rule_table.

(** Skilled Worker from outside the UK, one applicant, twelve months. *)
Definition request : Params :=
  {| routeId := "skilled-worker-visa"; applyFrom := "outside_uk";
     duration := 12; applicants := Some 1%Z; dependants := Some 0%Z;
     addPriority := None; addSuperPriority := None |}.

(** The same with both priority services ticked, from inside the UK. *)
Definition request_priority : Params :=
  {| routeId := "skilled-worker-visa"; applyFrom := "inside_uk";
     duration := 7; applicants := Some 1%Z; dependants := Some 2%Z;
     addPriority := Some true; addSuperPriority := Some true |}.

(** A naturalisation request for two applicants, from outside the UK. *)
Definition request_citizenship : Params :=
  {| routeId := "british-citizenship"; applyFrom := "outside_uk";
     duration := 0; applicants := Some 2%Z; dependants := None;
     addPriority := None; addSuperPriority := None |}.

Definition request_visitor : Params :=
  {| routeId := "standard-visitor-visa"; applyFrom := "outside_uk";
     duration := 6; applicants := Some 1%Z; dependants := Some 1%Z;
     addPriority := Some true; addSuperPriority := None |}.

Definition request_unknown : Params :=
  {| routeId := "no-such-route"; applyFrom := "outside_uk";
     duration := 12; applicants := None; dependants := None;
     addPriority := None; addSuperPriority := None |}.

End Sample.

(** * Properties *)

(** ** Facts about the JavaScript primitives *)

Module JSFacts.
Import JS.

Lemma ltb_lt (x y : Q) : ltb x y = true <-> (x < y)%Q.
Proof.
  unfold ltb. rewrite negb_true_iff, <- not_true_iff_false, Qle_bool_iff.
  split; [apply Qnot_le_lt | apply Qlt_not_le].
Qed.

(** [needle] occurs in [s]: [s] is [pre ++ needle ++ post]. *)
Definition occurs_in (needle s : string) : Prop :=
  exists pre post, s = pre +:+ needle +:+ post.

Lemma append_cons (a : Ascii.ascii) (s t : string) :
  String a s +:+ t = String a (s +:+ t).
Proof. reflexivity. Qed.

Lemma prefix_app (needle s : string) :
  String.prefix needle s = true <-> exists post, s = needle +:+ post.
Proof.
  revert s. induction needle as [|a needle IH]; intros s.
  - split; [exists s; reflexivity | destruct s; reflexivity].
  - destruct s as [|b s]; simpl.
    + split; [discriminate | intros [post H]; discriminate].
    + destruct (Ascii.ascii_dec a b) as [->|Hne].
      * rewrite IH. split; intros [post H]; exists post;
          rewrite append_cons in *; congruence.
      * split; [discriminate | intros [post H]].
        rewrite append_cons in H. congruence.
Qed.

Lemma includes_occurs (s needle : string) :
  includes s needle = true <-> occurs_in needle s.
Proof.
  unfold occurs_in. induction s as [|a s IH]; cbn [includes].
  - rewrite orb_false_r, prefix_app. split.
    + intros [post H]. exists "", post. exact H.
    + intros [[|b pre] [post H]]; [exists post; exact H | discriminate].
  - rewrite orb_true_iff, prefix_app, IH. split.
    + intros [[post H] | (pre & post & H)].
      * exists "", post. exact H.
      * exists (String a pre), post. rewrite append_cons. congruence.
    + intros [[|b pre] [post H]].
      * left. exists post. exact H.
      * right. exists pre, post. rewrite append_cons in H. congruence.
Qed.

Lemma includes_false (s needle : string) :
  includes s needle = false <-> ~ occurs_in needle s.
Proof.
  rewrite <- includes_occurs. destruct (includes s needle); split; congruence.
Qed.

(** [Math.ceil(m / 6)] is the least integer [k] with [m <= 6 k]. *)
Lemma ceil_div_6 (m : Z) : ceil_div m 6 = (- ((- m) / 6))%Z.
Proof.
  unfold ceil_div, Qceiling, Qfloor. simpl.
  rewrite Z.mul_1_r. reflexivity.
Qed.

Lemma ceil_div_6_bounds (m : Z) :
  (6 * (ceil_div m 6 - 1) < m <= 6 * ceil_div m 6)%Z.
Proof.
  rewrite ceil_div_6.
  pose proof (Z.div_mod (- m) 6). pose proof (Z.mod_pos_bound (- m) 6). lia.
Qed.

Lemma ceil_div_6_unique (m k : Z) :
  (6 * (k - 1) < m <= 6 * k)%Z -> ceil_div m 6 = k.
Proof. pose proof (ceil_div_6_bounds m). lia. Qed.

End JSFacts.

(** ** The calculator *)

Module CalculatorFacts.
Import JS JSFacts Calculator.
Local Open Scope list_scope.

(** The sum of a breakdown's amounts, added up in order from [0]. *)
Definition sum_amounts (l : list LineItem) : Q :=
  fold_left (fun s it => (s + amount it)%Q) l 0%Q.

(** The invariant of [calculate]'s two locals. *)
Definition consistent (a : acc) : Prop :=
  acc_total a = sum_amounts (acc_breakdown a).

Lemma empty_consistent : consistent (mkAcc [] 0%Q).
Proof. reflexivity. Qed.

Lemma push_consistent label cost a :
  consistent a -> consistent (push label cost a).
Proof.
  unfold consistent, sum_amounts, push; simpl. intros ->.
  rewrite fold_left_app. reflexivity.
Qed.

Create HintDb calc.
#[local] Hint Resolve push_consistent empty_consistent : calc.

Lemma application_step_consistent c route p a :
  consistent a -> consistent (application_step c route p a).
Proof. intros H. unfold application_step. repeat case_match; auto with calc. Qed.

Lemma ihs_step_consistent c route p a :
  consistent a -> consistent (ihs_step c route p a).
Proof. intros H. unfold ihs_step. repeat case_match; auto with calc. Qed.

Lemma life_in_uk_step_consistent p a :
  consistent a -> consistent (life_in_uk_step p a).
Proof. intros H. unfold life_in_uk_step. repeat case_match; auto with calc. Qed.

Lemma priority_step_consistent c route p a a' :
  priority_step c route p a = Return a' -> consistent a -> consistent a'.
Proof.
  unfold priority_step, getPriorityFee. intros H Ha.
  repeat case_match; simplify_eq/=; auto with calc.
Qed.

Lemma super_priority_step_consistent c route p a a' :
  super_priority_step c route p a = Return a' -> consistent a -> consistent a'.
Proof.
  unfold super_priority_step, getSuperPriorityFee. intros H Ha.
  repeat case_match; simplify_eq/=; auto with calc.
Qed.

Lemma ceremony_step_consistent c route p a a' :
  ceremony_step c route p a = Return a' -> consistent a -> consistent a'.
Proof.
  unfold ceremony_step. intros H Ha.
  repeat case_match; simplify_eq/=; auto with calc.
Qed.

(** A call that returns went through every step. *)
Lemma calculate_Return c p r :
  calculate c p = Return r ->
  exists route a3 a4 a5,
    find_route c (routeId p) = Some route /\
    priority_step c route p
      (ihs_step c route p (application_step c route p (mkAcc [] 0%Q)))
      = Return a3 /\
    super_priority_step c route p a3 = Return a4 /\
    ceremony_step c route p a4 = Return a5 /\
    r = {| breakdown := acc_breakdown (life_in_uk_step p a5);
           total := acc_total (life_in_uk_step p a5);
           lastReviewed := last_reviewed route |}.
Proof.
  unfold calculate. destruct (find_route c (routeId p)) as [route|]; [|discriminate].
  destruct (priority_step _ _ _ _) as [a3|] eqn:H3; [|discriminate]. simpl.
  destruct (super_priority_step _ _ _ _) as [a4|] eqn:H4; [|discriminate]. simpl.
  destruct (ceremony_step _ _ _ _) as [a5|] eqn:H5; [|discriminate]. simpl.
  intros [= <-]. exists route, a3, a4, a5. auto.
Qed.

(** C1.  Whenever [calculate] returns, the total it returns is the sum of
    the amounts of the line items of the breakdown it returns. *)
Theorem total_is_sum_of_breakdown c p r :
  calculate c p = Return r -> total r = sum_amounts (breakdown r).
Proof.
  intros (route & a3 & a4 & a5 & _ & H3 & H4 & H5 & ->)%calculate_Return.
  simpl. apply life_in_uk_step_consistent.
  eapply ceremony_step_consistent; [exact H5|].
  eapply super_priority_step_consistent; [exact H4|].
  eapply priority_step_consistent; [exact H3|].
  apply ihs_step_consistent, application_step_consistent, empty_consistent.
Qed.

Lemma total_is_sum_of_breakdown_witness :
  exists r, calculate Sample.calc Sample.request_priority = Return r
            /\ total r = sum_amounts (breakdown r).
Proof.
  eexists. split; [vm_compute; reflexivity|].
  apply (total_is_sum_of_breakdown Sample.calc Sample.request_priority).
  vm_compute. reflexivity.
Defined.

(** *** What each step appends to the breakdown *)

Definition lines_of (o : outcome acc) : list LineItem :=
  match o with
  | Return a => acc_breakdown a
  | Throw _ => []
  end.

(** The lines a step contributes, read off by running it on empty locals. *)
Definition application_lines c route p : list LineItem :=
  acc_breakdown (application_step c route p (mkAcc [] 0%Q)).
Definition ihs_lines c route p : list LineItem :=
  acc_breakdown (ihs_step c route p (mkAcc [] 0%Q)).
Definition priority_lines c route p : list LineItem :=
  lines_of (priority_step c route p (mkAcc [] 0%Q)).
Definition super_priority_lines c route p : list LineItem :=
  lines_of (super_priority_step c route p (mkAcc [] 0%Q)).
Definition ceremony_lines c route p : list LineItem :=
  lines_of (ceremony_step c route p (mkAcc [] 0%Q)).
Definition life_in_uk_lines p : list LineItem :=
  acc_breakdown (life_in_uk_step p (mkAcc [] 0%Q)).

Ltac frame :=
  repeat case_match; simplify_eq/=; rewrite ?app_nil_r; try reflexivity.

Lemma application_step_frame c route p a :
  acc_breakdown (application_step c route p a)
  = acc_breakdown a ++ application_lines c route p.
Proof. unfold application_lines, application_step. frame. Qed.

Lemma ihs_step_frame c route p a :
  acc_breakdown (ihs_step c route p a) = acc_breakdown a ++ ihs_lines c route p.
Proof. unfold ihs_lines, ihs_step. frame. Qed.

Lemma life_in_uk_step_frame p a :
  acc_breakdown (life_in_uk_step p a) = acc_breakdown a ++ life_in_uk_lines p.
Proof. unfold life_in_uk_lines, life_in_uk_step. frame. Qed.

Lemma priority_step_frame c route p a a' :
  priority_step c route p a = Return a' ->
  acc_breakdown a' = acc_breakdown a ++ priority_lines c route p.
Proof.
  unfold priority_lines, priority_step, getPriorityFee. intros H. frame.
Qed.

Lemma super_priority_step_frame c route p a a' :
  super_priority_step c route p a = Return a' ->
  acc_breakdown a' = acc_breakdown a ++ super_priority_lines c route p.
Proof.
  unfold super_priority_lines, super_priority_step, getSuperPriorityFee.
  intros H. frame.
Qed.

Lemma ceremony_step_frame c route p a a' :
  ceremony_step c route p a = Return a' ->
  acc_breakdown a' = acc_breakdown a ++ ceremony_lines c route p.
Proof. unfold ceremony_lines, ceremony_step. intros H. frame. Qed.

(** The breakdown of a call that returns: the six contributions in the
    source's order. *)
Lemma calculate_breakdown c p r route :
  find_route c (routeId p) = Some route ->
  calculate c p = Return r ->
  breakdown r
  = application_lines c route p ++ ihs_lines c route p
    ++ priority_lines c route p ++ super_priority_lines c route p
    ++ ceremony_lines c route p ++ life_in_uk_lines p.
Proof.
  intros Hr (route' & a3 & a4 & a5 & Hr' & H3 & H4 & H5 & ->)%calculate_Return.
  rewrite Hr in Hr'. injection Hr' as <-. simpl.
  rewrite life_in_uk_step_frame, (ceremony_step_frame _ _ _ _ _ H5),
    (super_priority_step_frame _ _ _ _ _ H4),
    (priority_step_frame _ _ _ _ _ H3), ihs_step_frame, application_step_frame.
  simpl. rewrite <- !app_assoc. reflexivity.
Qed.

(** Whether the three steps that can throw do so depends on the tables and
    the request only, not on the lines collected so far. *)
Lemma calculate_steps_return c p r route :
  find_route c (routeId p) = Some route ->
  calculate c p = Return r ->
  (exists a, priority_step c route p (mkAcc [] 0%Q) = Return a) /\
  (exists a, super_priority_step c route p (mkAcc [] 0%Q) = Return a) /\
  (exists a, ceremony_step c route p (mkAcc [] 0%Q) = Return a).
Proof.
  intros Hr (route' & a3 & a4 & a5 & Hr' & H3 & H4 & H5 & ->)%calculate_Return.
  rewrite Hr in Hr'. injection Hr' as <-.
  revert H3 H4 H5.
  unfold priority_step, super_priority_step, ceremony_step,
    getPriorityFee, getSuperPriorityFee.
  intros H3 H4 H5. repeat split; repeat case_match; simplify_eq/=; eauto.
Qed.

(** *** The label of each contribution *)

Lemma application_label_head n :
  exists rest, application_label n = String "A"%char rest.
Proof. eexists. reflexivity. Qed.

Lemma application_lines_label c route p it :
  In it (application_lines c route p) ->
  item it = application_label (totalApplicants p).
Proof.
  unfold application_lines, application_step.
  intros Hin. repeat case_match; simpl in Hin; intuition (subst; auto).
Qed.

Lemma ihs_lines_label c route p it :
  In it (ihs_lines c route p) -> item it = "Immigration Health Surcharge".
Proof.
  unfold ihs_lines, ihs_step.
  intros Hin. repeat case_match; simpl in Hin; intuition (subst; auto).
Qed.

Lemma priority_lines_label c route p it :
  In it (priority_lines c route p) -> item it = "Priority Service".
Proof.
  unfold priority_lines, priority_step, getPriorityFee.
  intros Hin. repeat case_match; simpl in Hin; intuition (subst; auto).
Qed.

Lemma super_priority_lines_label c route p it :
  In it (super_priority_lines c route p) -> item it = "Super Priority Service".
Proof.
  unfold super_priority_lines, super_priority_step, getSuperPriorityFee.
  intros Hin. repeat case_match; simpl in Hin; intuition (subst; auto).
Qed.

Lemma ceremony_lines_label c route p it :
  In it (ceremony_lines c route p) -> item it = "Citizenship Ceremony".
Proof.
  unfold ceremony_lines, ceremony_step.
  intros Hin. repeat case_match; simpl in Hin; intuition (subst; auto).
Qed.

Lemma life_in_uk_lines_label p it :
  In it (life_in_uk_lines p) -> item it = "Life in the UK Test".
Proof.
  unfold life_in_uk_lines, life_in_uk_step.
  intros Hin. repeat case_match; simpl in Hin; intuition (subst; auto).
Qed.

(** Closes a goal in which a line of one contribution carries the label of
    another. *)
Ltac wrong_label :=
  match goal with
  | H : In ?it (application_lines _ _ ?p), L : item ?it = _ |- _ =>
      apply application_lines_label in H;
      destruct (application_label_head (totalApplicants p)) as [? E];
      rewrite H, E in L; discriminate L
  | H : In ?it (ihs_lines _ _ _), L : item ?it = _ |- _ =>
      apply ihs_lines_label in H; rewrite H in L; discriminate L
  | H : In ?it (priority_lines _ _ _), L : item ?it = _ |- _ =>
      apply priority_lines_label in H; rewrite H in L; discriminate L
  | H : In ?it (super_priority_lines _ _ _), L : item ?it = _ |- _ =>
      apply super_priority_lines_label in H; rewrite H in L; discriminate L
  | H : In ?it (ceremony_lines _ _ _), L : item ?it = _ |- _ =>
      apply ceremony_lines_label in H; rewrite H in L; discriminate L
  | H : In ?it (life_in_uk_lines _), L : item ?it = _ |- _ =>
      apply life_in_uk_lines_label in H; rewrite H in L; discriminate L
  end.

(** A line of the breakdown with one of the five fixed labels is a line of
    the contribution of that label. *)
Lemma labelled_line c p r route it :
  find_route c (routeId p) = Some route ->
  calculate c p = Return r ->
  (In it (breakdown r) /\ item it = "Immigration Health Surcharge"
     <-> In it (ihs_lines c route p)) /\
  (In it (breakdown r) /\ item it = "Priority Service"
     <-> In it (priority_lines c route p)) /\
  (In it (breakdown r) /\ item it = "Super Priority Service"
     <-> In it (super_priority_lines c route p)) /\
  (In it (breakdown r) /\ item it = "Citizenship Ceremony"
     <-> In it (ceremony_lines c route p)) /\
  (In it (breakdown r) /\ item it = "Life in the UK Test"
     <-> In it (life_in_uk_lines p)).
Proof.
  intros Hr Hc. rewrite (calculate_breakdown _ _ _ _ Hr Hc), !in_app_iff.
  repeat split;
    try (intros [[H|[H|[H|[H|[H|H]]]]] L]; solve [exact H | wrong_label]);
    try solve [intuition auto];
    eauto using ihs_lines_label, priority_lines_label,
      super_priority_lines_label, ceremony_lines_label, life_in_uk_lines_label.
Qed.

(** *** The contents of each contribution *)

Lemma array_includes_In (l : list string) (x : string) :
  array_includes l x = true <-> In x l.
Proof.
  unfold array_includes. rewrite bool_decide_eq_true. apply list_elem_of_In.
Qed.

Lemma requested_and_listed_dec (flag : bool) (x : string) (l : list string) :
  (flag = true /\ In x l) \/ ~ (flag = true /\ In x l).
Proof.
  rewrite <- array_includes_In.
  destruct flag, (array_includes l x); intuition congruence.
Qed.

(** The flat fee of a priority service for a location: the inside-UK amount
    for [inside_uk], the outside-UK amount for anything else; [null]
    counts as [0] in the product. *)
Definition location_fee (fee : Fee) (applyFrom : string) : Q :=
  to_number (if decide (applyFrom = "inside_uk")
             then amount_inside_uk fee else amount_outside_uk fee).

Lemma eqb_decide (s t : string) {A} (x y : A) :
  (if String.eqb s t then x else y) = (if decide (s = t) then x else y).
Proof.
  destruct (String.eqb_spec s t), (decide (s = t)); congruence.
Qed.

Lemma priority_lines_spec c route p a :
  priority_step c route p (mkAcc [] 0%Q) = Return a ->
  (addPriority_of p = true -> In "priority" (extras_supported route) ->
     exists fee, fees c !! "priority" = Some fee /\
       priority_lines c route p
       = [mkItem "Priority Service"
            (location_fee fee (applyFrom p) * inject_Z (totalApplicants p))]) /\
  (~ (addPriority_of p = true /\ In "priority" (extras_supported route)) ->
     priority_lines c route p = []).
Proof.
  unfold priority_lines, priority_step, getPriorityFee, location_fee.
  rewrite <- array_includes_In. intros H.
  destruct (addPriority_of p), (array_includes _ _); simpl in *;
    try (split; [intros; discriminate | reflexivity]).
  destruct (fees c !! "priority") as [fee|]; [|discriminate].
  split; [|intros []; auto].
  intros _ _. exists fee. rewrite <- eqb_decide. auto.
Qed.

Lemma super_priority_lines_spec c route p a :
  super_priority_step c route p (mkAcc [] 0%Q) = Return a ->
  (addSuperPriority_of p = true -> In "super_priority" (extras_supported route) ->
     exists fee, fees c !! "super_priority" = Some fee /\
       super_priority_lines c route p
       = [mkItem "Super Priority Service"
            (location_fee fee (applyFrom p) * inject_Z (totalApplicants p))]) /\
  (~ (addSuperPriority_of p = true
      /\ In "super_priority" (extras_supported route)) ->
     super_priority_lines c route p = []).
Proof.
  unfold super_priority_lines, super_priority_step, getSuperPriorityFee,
    location_fee.
  rewrite <- array_includes_In. intros H.
  destruct (addSuperPriority_of p), (array_includes _ _); simpl in *;
    try (split; [intros; discriminate | reflexivity]).
  destruct (fees c !! "super_priority") as [fee|]; [|discriminate].
  split; [|intros []; auto].
  intros _ _. exists fee. rewrite <- eqb_decide. auto.
Qed.

Lemma ceremony_lines_spec c route p a :
  ceremony_step c route p (mkAcc [] 0%Q) = Return a ->
  (In "citizenship_ceremony" (extras_supported route) ->
     exists fee, fees c !! "citizenship_ceremony" = Some fee /\
       ceremony_lines c route p
       = [mkItem "Citizenship Ceremony"
            (to_number (amount_inside_uk fee) * inject_Z (totalApplicants p))]) /\
  (~ In "citizenship_ceremony" (extras_supported route) ->
     ceremony_lines c route p = []).
Proof.
  unfold ceremony_lines, ceremony_step.
  rewrite <- array_includes_In. intros H.
  destruct (array_includes _ _); simpl in *;
    [|split; [intros; discriminate | reflexivity]].
  destruct (fees c !! "citizenship_ceremony") as [fee|]; [|discriminate].
  split; [|intros []; auto].
  intros _. exists fee. auto.
Qed.

Lemma life_in_uk_lines_spec p :
  life_in_uk_lines p
  = if includes (routeId p) "indefinite-leave" || includes (routeId p) "citizenship"
    then [mkItem "Life in the UK Test" (50 * inject_Z (totalApplicants p))]
    else [].
Proof. unfold life_in_uk_lines, life_in_uk_step. case_match; reflexivity. Qed.

(** *** The claims about single lines *)

(** C4.  For a route whose IHS policy is [not_required] or [exempt], no
    line of a returned breakdown is an Immigration Health Surcharge line,
    whatever the request. *)
Theorem no_ihs_line_when_not_required_or_exempt c p r route :
  find_route c (routeId p) = Some route ->
  ihs_policy route = Some "not_required" \/ ihs_policy route = Some "exempt" ->
  calculate c p = Return r ->
  forall it, In it (breakdown r) -> item it <> "Immigration Health Surcharge".
Proof.
  intros Hr Hp Hc it Hin L.
  destruct (labelled_line c p r route it Hr Hc) as ([H _] & _).
  specialize (H (conj Hin L)). unfold ihs_lines, ihs_step in H.
  destruct Hp as [Hp | Hp]; rewrite Hp in H;
    repeat case_bool_decide; simpl in H; congruence || contradiction.
Qed.

Lemma no_ihs_line_when_not_required_or_exempt_witness :
  exists r, calculate Sample.calc Sample.request_visitor = Return r
    /\ forall it, In it (breakdown r) ->
         item it <> "Immigration Health Surcharge".
Proof.
  eexists. split; [vm_compute; reflexivity|].
  apply (no_ihs_line_when_not_required_or_exempt
           Sample.calc Sample.request_visitor _ Sample.visitor);
    [vm_compute; reflexivity | left; reflexivity | vm_compute; reflexivity].
Defined.

(** The rule of an optional service billed under [label], requested by
    [flag] and priced by the fee-table entry [key]: a line with that label
    is present exactly when the flag is set and the route lists [key]
    among its supported extras, and such a line's amount is the entry's
    flat fee for the location times (applicants + dependants). *)
Definition service_line_rule (label key : string) (flag : bool)
    (c : Calculator.t) (p : Params) (route : Route) (r : Result) : Prop :=
  ((exists it, In it (breakdown r) /\ item it = label)
     <-> flag = true /\ In key (extras_supported route)) /\
  (forall it, In it (breakdown r) -> item it = label ->
     exists fee, fees c !! key = Some fee /\
       amount it = (location_fee fee (applyFrom p)
                    * inject_Z (applicants_of p + dependants_of p))%Q).

(** C5.  In a returned breakdown a Priority Service line is present exactly
    when the request sets [addPriority] and the route lists [priority]
    among its supported extras, and its amount is the [priority] entry's
    flat fee for the location times (applicants + dependants); likewise
    for Super Priority Service with [addSuperPriority], [super_priority]
    and the [super_priority] entry. *)
Theorem priority_lines_iff_requested_and_supported c p r route :
  find_route c (routeId p) = Some route ->
  calculate c p = Return r ->
  service_line_rule "Priority Service" "priority" (addPriority_of p)
    c p route r /\
  service_line_rule "Super Priority Service" "super_priority"
    (addSuperPriority_of p) c p route r.
Proof.
  unfold service_line_rule.
  intros Hr Hc.
  destruct (calculate_steps_return c p r route Hr Hc)
    as ((a & [Hp Hp']%priority_lines_spec)
        & (a' & [Hs Hs']%super_priority_lines_spec) & _).
  pose proof (fun it => proj1 (proj2 (labelled_line c p r route it Hr Hc))) as Lp.
  pose proof (fun it =>
    proj1 (proj2 (proj2 (labelled_line c p r route it Hr Hc)))) as Ls.
  split; split; [split| |split|].
  - intros (it & Hit%Lp).
    destruct (requested_and_listed_dec (addPriority_of p) "priority"
                (extras_supported route))
      as [?|Hn]; [assumption|]. rewrite (Hp' Hn) in Hit. destruct Hit.
  - intros [Hf Hx]. destruct (Hp Hf Hx) as (fee & _ & E).
    eexists. apply Lp. rewrite E. left. reflexivity.
  - intros it Hin L. pose proof (proj1 (Lp it) (conj Hin L)) as Hit.
    destruct (requested_and_listed_dec (addPriority_of p) "priority"
                (extras_supported route))
      as [[Hf Hx]|Hn]; [|rewrite (Hp' Hn) in Hit; destruct Hit].
    destruct (Hp Hf Hx) as (fee & Hfee & E). rewrite E in Hit.
    exists fee. split; [exact Hfee|].
    destruct Hit as [<-|[]]. reflexivity.
  - intros (it & Hit%Ls).
    destruct (requested_and_listed_dec (addSuperPriority_of p) "super_priority"
                (extras_supported route))
      as [?|Hn]; [assumption|]. rewrite (Hs' Hn) in Hit. destruct Hit.
  - intros [Hf Hx]. destruct (Hs Hf Hx) as (fee & _ & E).
    eexists. apply Ls. rewrite E. left. reflexivity.
  - intros it Hin L. pose proof (proj1 (Ls it) (conj Hin L)) as Hit.
    destruct (requested_and_listed_dec (addSuperPriority_of p) "super_priority"
                (extras_supported route))
      as [[Hf Hx]|Hn]; [|rewrite (Hs' Hn) in Hit; destruct Hit].
    destruct (Hs Hf Hx) as (fee & Hfee & E). rewrite E in Hit.
    exists fee. split; [exact Hfee|].
    destruct Hit as [<-|[]]. reflexivity.
Qed.

Lemma priority_lines_iff_requested_and_supported_witness :
  exists r, calculate Sample.calc Sample.request_priority = Return r /\
    service_line_rule "Priority Service" "priority" true
      Sample.calc Sample.request_priority Sample.skilled_worker r /\
    service_line_rule "Super Priority Service" "super_priority" true
      Sample.calc Sample.request_priority Sample.skilled_worker r.
Proof.
  eexists. split; [vm_compute; reflexivity|].
  apply (priority_lines_iff_requested_and_supported
           Sample.calc Sample.request_priority _ Sample.skilled_worker);
    vm_compute; reflexivity.
Defined.

(** C8.  In a returned breakdown a Life in the UK Test line is present
    exactly when the route identifier of the request contains
    [indefinite-leave] or [citizenship], whatever the tables hold, and
    such a line's amount is 50 times (applicants + dependants). *)
Theorem life_in_uk_line_iff_identifier c p r :
  calculate c p = Return r ->
  ((exists it, In it (breakdown r) /\ item it = "Life in the UK Test")
     <-> occurs_in "indefinite-leave" (routeId p)
         \/ occurs_in "citizenship" (routeId p)) /\
  (forall it, In it (breakdown r) -> item it = "Life in the UK Test" ->
     amount it = (50 * inject_Z (applicants_of p + dependants_of p))%Q).
Proof.
  intros Hc. destruct (calculate_Return c p r Hc) as (route & _ & _ & _ & Hr & _).
  pose proof (fun it =>
    proj2 (proj2 (proj2 (proj2 (labelled_line c p r route it Hr Hc))))) as L.
  rewrite <- !includes_occurs, <- orb_true_iff.
  pose proof (life_in_uk_lines_spec p) as E.
  destruct (includes (routeId p) "indefinite-leave"
            || includes (routeId p) "citizenship").
  - split.
    + split; [reflexivity|]. intros _. eexists. apply L. rewrite E.
      left. reflexivity.
    + intros it Hin Hl. pose proof (proj1 (L it) (conj Hin Hl)) as Hit.
      rewrite E in Hit. destruct Hit as [<-|[]]. reflexivity.
  - split.
    + split; [|discriminate]. intros (it & Hit%L). rewrite E in Hit.
      destruct Hit.
    + intros it Hin Hl. pose proof (proj1 (L it) (conj Hin Hl)) as Hit.
      rewrite E in Hit. destruct Hit.
Qed.

Lemma life_in_uk_line_iff_identifier_witness :
  exists r, calculate Sample.calc Sample.request_citizenship = Return r /\
    ((exists it, In it (breakdown r) /\ item it = "Life in the UK Test")
       <-> occurs_in "indefinite-leave" "british-citizenship"
           \/ occurs_in "citizenship" "british-citizenship") /\
    (forall it, In it (breakdown r) -> item it = "Life in the UK Test" ->
       amount it = (50 * inject_Z (2 + 0))%Q).
Proof.
  eexists. split; [vm_compute; reflexivity|].
  apply (life_in_uk_line_iff_identifier Sample.calc Sample.request_citizenship).
  vm_compute. reflexivity.
Defined.

(** C10.  For a route that lists [citizenship_ceremony] among its supported
    extras, the Citizenship Ceremony line of a returned breakdown is the
    one line whose amount is the [citizenship_ceremony] entry's inside-UK
    amount times (applicants + dependants), wherever the request applies
    from; the entry's outside-UK amount plays no part. *)
Theorem ceremony_amount_is_inside_uk c p r route :
  find_route c (routeId p) = Some route ->
  In "citizenship_ceremony" (extras_supported route) ->
  calculate c p = Return r ->
  exists fee, fees c !! "citizenship_ceremony" = Some fee /\
    forall it,
      In it (breakdown r) /\ item it = "Citizenship Ceremony"
      <-> it = mkItem "Citizenship Ceremony"
                 (to_number (amount_inside_uk fee)
                  * inject_Z (applicants_of p + dependants_of p)).
Proof.
  intros Hr Hx Hc.
  destruct (calculate_steps_return c p r route Hr Hc)
    as (_ & _ & (a & [H _]%ceremony_lines_spec)).
  destruct (H Hx) as (fee & Hfee & E). exists fee. split; [exact Hfee|].
  intros it.
  rewrite (proj1 (proj2 (proj2 (proj2 (labelled_line c p r route it Hr Hc))))), E.
  simpl. unfold totalApplicants, heads. intuition congruence.
Qed.

Lemma ceremony_amount_is_inside_uk_witness :
  exists r, calculate Sample.calc Sample.request_citizenship = Return r /\
    exists fee, fees Sample.calc !! "citizenship_ceremony" = Some fee /\
      forall it,
        In it (breakdown r) /\ item it = "Citizenship Ceremony"
        <-> it = mkItem "Citizenship Ceremony"
                   (to_number (amount_inside_uk fee) * inject_Z (2 + 0)).
Proof.
  eexists. split; [vm_compute; reflexivity|].
  apply (ceremony_amount_is_inside_uk
           Sample.calc Sample.request_citizenship _ Sample.citizenship);
    [vm_compute; reflexivity | simpl; auto | vm_compute; reflexivity].
Defined.

(** *** The Immigration Health Surcharge *)

(** The yearly rate the specification names for a route: the student rate
    exactly for the [required_student] policy. *)
Definition rate_for (c : Calculator.t) (route : Route) : Q :=
  if decide (ihs_policy route = Some "required_student")
  then rate_per_year (student (ihs_rates (rules c)))
  else rate_per_year (standard (ihs_rates (rules c))).

Lemma calculateIHS_formula c route m a d :
  calculateIHS c route m a d
  = (rate_for c route * (inject_Z (ceil_div m 6) * (1 # 2)) * inject_Z (a + d))%Q.
Proof.
  unfold calculateIHS, rate_for, years, heads.
  case_bool_decide; destruct (decide _); congruence.
Qed.

Lemma ihs_lines_spec c route p :
  ihs_policy route <> Some "not_required" ->
  ihs_policy route <> Some "exempt" ->
  ihs_lines c route p
  = let ihsCost :=
      calculateIHS c route (duration p) (applicants_of p) (dependants_of p) in
    if JS.ltb 0 ihsCost
    then [mkItem "Immigration Health Surcharge" ihsCost] else [].
Proof.
  intros H1 H2. unfold ihs_lines, ihs_step.
  rewrite !bool_decide_eq_true_2 by assumption. simpl.
  case_match; reflexivity.
Qed.

Lemma years_first_half m : (1 <= m <= 6)%Z -> (years m == 1 # 2)%Q.
Proof.
  intros H. unfold years. rewrite (ceil_div_6_unique m 1) by lia. reflexivity.
Qed.

Lemma years_second_half m : (7 <= m <= 12)%Z -> (years m == 1)%Q.
Proof.
  intros H. unfold years. rewrite (ceil_div_6_unique m 2) by lia. reflexivity.
Qed.

(** C3.  For a route whose IHS policy is neither [not_required] nor
    [exempt] and a duration of [m] months, the surcharge is
    rate x (k x 0.5) x (applicants + dependants), where [k] is the ceiling
    of [m / 6] (the least integer with [m <= 6 k]) and the rate is the
    student rate exactly for the [required_student] policy, the standard
    rate otherwise; a returned breakdown has an Immigration Health
    Surcharge line exactly when that amount is positive, and the line
    carries that amount; 1 to 6 months bill half a year and 7 to 12 months
    bill one year. *)
Theorem ihs_amount_and_line c p route :
  find_route c (routeId p) = Some route ->
  ihs_policy route <> Some "not_required" ->
  ihs_policy route <> Some "exempt" ->
  exists k : Z,
    (6 * (k - 1) < duration p <= 6 * k)%Z /\
    years (duration p) = (inject_Z k * (1 # 2))%Q /\
    let ihs := (rate_for c route * (inject_Z k * (1 # 2))
                * inject_Z (applicants_of p + dependants_of p))%Q in
    calculateIHS c route (duration p) (applicants_of p) (dependants_of p) = ihs /\
    (forall r, calculate c p = Return r ->
       ((exists it, In it (breakdown r)
                    /\ item it = "Immigration Health Surcharge")
          <-> (0 < ihs)%Q) /\
       (forall it, In it (breakdown r) ->
          item it = "Immigration Health Surcharge" -> amount it = ihs)) /\
    ((1 <= duration p <= 6)%Z -> (years (duration p) == 1 # 2)%Q) /\
    ((7 <= duration p <= 12)%Z -> (years (duration p) == 1)%Q).
Proof.
  intros Hr H1 H2. exists (ceil_div (duration p) 6).
  split; [apply ceil_div_6_bounds|]. split; [reflexivity|].
  cbv zeta. rewrite <- calculateIHS_formula.
  split; [reflexivity|].
  split; [|split; [apply years_first_half | apply years_second_half]].
  intros r Hc.
  pose proof (fun it => proj1 (labelled_line c p r route it Hr Hc)) as L.
  pose proof (ihs_lines_spec c route p H1 H2) as E. cbv zeta in E.
  rewrite <- ltb_lt.
  destruct (JS.ltb 0 (calculateIHS _ _ _ _ _)).
  - split.
    + split; [reflexivity|]. intros _. eexists. apply L. rewrite E.
      left. reflexivity.
    + intros it Hin Hl. pose proof (proj1 (L it) (conj Hin Hl)) as Hit.
      rewrite E in Hit. destruct Hit as [<-|[]]. reflexivity.
  - split.
    + split; [|discriminate]. intros (it & Hit%L). rewrite E in Hit.
      destruct Hit.
    + intros it Hin Hl. pose proof (proj1 (L it) (conj Hin Hl)) as Hit.
      rewrite E in Hit. destruct Hit.
Qed.

Lemma ihs_amount_and_line_witness :
  (exists r, calculate Sample.calc Sample.request = Return r) /\
  exists k : Z,
    (6 * (k - 1) < 12 <= 6 * k)%Z /\
    years 12 = (inject_Z k * (1 # 2))%Q /\
    let ihs := (1035 * (inject_Z k * (1 # 2)) * inject_Z (1 + 0))%Q in
    calculateIHS Sample.calc Sample.skilled_worker 12 1 0 = ihs /\
    (forall r, calculate Sample.calc Sample.request = Return r ->
       ((exists it, In it (breakdown r)
                    /\ item it = "Immigration Health Surcharge")
          <-> (0 < ihs)%Q) /\
       (forall it, In it (breakdown r) ->
          item it = "Immigration Health Surcharge" -> amount it = ihs)) /\
    ((1 <= 12 <= 6)%Z -> (years 12 == 1 # 2)%Q) /\
    ((7 <= 12 <= 12)%Z -> (years 12 == 1)%Q).
Proof.
  split; [eexists; vm_compute; reflexivity|].
  apply (ihs_amount_and_line Sample.calc Sample.request Sample.skilled_worker);
    [vm_compute; reflexivity | discriminate | discriminate].
Defined.

(** *** The application fee *)

(** The word looked for in the fee keys: [inside] when applying from
    inside the UK, [outside] otherwise. *)
Definition location_word (applyFrom : string) : string :=
  if decide (applyFrom = "inside_uk") then "inside" else "outside".

(** [key] is the first entry of [feeItems] whose name contains [word], or
    the first entry of [feeItems] when no name contains it. *)
Definition selected_fee_key (word : string) (feeItems : list string)
    (key : string) : Prop :=
  (exists pre post,
     feeItems = pre ++ key :: post /\ occurs_in word key
     /\ forall k, In k pre -> ~ occurs_in word k)
  \/ (head feeItems = Some key
      /\ forall k, In k feeItems -> ~ occurs_in word k).

(** The amount of a fee entry for the requested location, or the other
    location's amount when the requested one is [null]. *)
Definition requested_amount (fee : Fee) (applyFrom : string) : num_or_null :=
  if decide (applyFrom = "inside_uk")
  then match amount_inside_uk fee with
       | Some q => Some q
       | None => amount_outside_uk fee
       end
  else match amount_outside_uk fee with
       | Some q => Some q
       | None => amount_inside_uk fee
       end.

Lemma find_first {A} (f : A -> bool) (l : list A) (x : A) :
  find f l = Some x ->
  exists pre post,
    l = pre ++ x :: post /\ f x = true /\ forall y, In y pre -> f y = false.
Proof.
  induction l as [|a l IH]; simpl; [discriminate|].
  destruct (f a) eqn:Fa.
  - intros [= ->]. exists [], l. simpl. intuition.
  - intros (pre & post & -> & Fx & Hpre)%IH.
    exists (a :: pre), post. simpl. intuition (subst; auto).
Qed.

Lemma getFeeKey_selected route applyFrom feeItems :
  fee_items route = Some feeItems -> feeItems <> [] ->
  exists feeKey,
    getFeeKey route applyFrom = Some feeKey /\
    selected_fee_key (location_word applyFrom) feeItems feeKey.
Proof.
  intros Hf Hne. unfold getFeeKey, location_word. rewrite Hf.
  destruct feeItems as [|first rest]; [congruence|].
  cbn [head]. rewrite eqb_decide.
  set (l := first :: rest). unfold selected_fee_key.
  destruct (decide (applyFrom = "inside_uk")); eexists; (split; [reflexivity|]);
    match goal with |- context [find ?f l] => destruct (find f l) as [k|] eqn:E end;
    simpl.
  1, 3: left; apply find_first in E as (pre & post & -> & Hk & Hpre);
        exists pre, post; rewrite <- includes_occurs;
        split; [reflexivity | split; [exact Hk|]];
        intros y Hy; apply includes_false, Hpre, Hy.
  all: right; split; [reflexivity|];
       intros y Hy; apply includes_false;
       exact (find_none _ _ E y Hy).
Qed.

Lemma to_number_fallback (a b : num_or_null) (q : Q) :
  match a with Some x => Some x | None => b end = Some q ->
  (a = None \/ b = None) ->
  (to_number (JS.or_else (JS.or_else a b) (Some 0%Q)) == q)%Q
  /\ (to_number (JS.or_else (JS.or_else b a) (Some 0%Q)) == q)%Q.
Proof.
  unfold JS.or_else, truthy.
  destruct a as [x|], b as [y|]; intros [= <-] [?|?]; try discriminate;
    destruct (Qeq_bool _ 0) eqn:E; simpl; rewrite ?E; simpl;
    try apply Qeq_bool_eq in E; split; try reflexivity; symmetry; exact E.
Qed.

Lemma getFeeAmount_requested c feeKey applyFrom fee q :
  fees c !! feeKey = Some fee ->
  applyFrom = "inside_uk" \/ applyFrom = "outside_uk" ->
  requested_amount fee applyFrom = Some q ->
  (to_number (getFeeAmount c feeKey applyFrom) == q)%Q.
Proof.
  intros Hfee Hloc. unfold getFeeAmount, requested_amount. rewrite Hfee.
  destruct Hloc as [-> | ->]; simpl.
  - destruct (amount_inside_uk fee) as [x|] eqn:Ei; simpl.
    + intros [= <-]. reflexivity.
    + intros Ho. apply (to_number_fallback None (amount_outside_uk fee) q); auto.
  - destruct (amount_outside_uk fee) as [y|] eqn:Eo; simpl.
    + intros [= <-]. reflexivity.
    + intros Hi. apply (to_number_fallback None (amount_inside_uk fee) q); auto.
Qed.

Lemma application_lines_spec c route p feeKey :
  getFeeKey route (applyFrom p) = Some feeKey ->
  application_lines c route p
  = if truthy_string feeKey && bool_decide (is_Some (fees c !! feeKey))
    then [mkItem (application_label (totalApplicants p))
            (to_number (getFeeAmount c feeKey (applyFrom p))
             * inject_Z (totalApplicants p))]
    else [].
Proof.
  intros H. unfold application_lines, application_step. rewrite H.
  case_match; reflexivity.
Qed.

(** C2.  For a route with a non-empty [fee_items] list, the application-fee
    key is the first entry whose name contains [inside] (applying from
    inside the UK) or [outside] (otherwise), and the first entry when no
    name does; when the fee table holds that key, the first line of a
    returned breakdown is the application fee, and for a request from
    inside or outside the UK its amount is the entry's amount for that
    location, or the other location's amount when that one is [null],
    times (applicants + dependants). *)
Theorem application_fee_key_and_amount c p route feeItems :
  find_route c (routeId p) = Some route ->
  fee_items route = Some feeItems ->
  feeItems <> [] ->
  exists feeKey,
    getFeeKey route (applyFrom p) = Some feeKey /\
    selected_fee_key (location_word (applyFrom p)) feeItems feeKey /\
    forall r fee,
      calculate c p = Return r ->
      fees c !! feeKey = Some fee ->
      feeKey <> "" ->
      exists cost,
        head (breakdown r)
        = Some (mkItem (application_label (totalApplicants p)) cost) /\
        (applyFrom p = "inside_uk" \/ applyFrom p = "outside_uk" ->
         forall q, requested_amount fee (applyFrom p) = Some q ->
           (cost == q * inject_Z (applicants_of p + dependants_of p))%Q).
Proof.
  intros Hr Hf Hne.
  destruct (getFeeKey_selected route (applyFrom p) feeItems Hf Hne)
    as (feeKey & Hk & Hsel).
  exists feeKey. split; [exact Hk|]. split; [exact Hsel|].
  intros r fee Hc Hfee Hkey.
  rewrite (calculate_breakdown c p r route Hr Hc),
    (application_lines_spec c route p feeKey Hk).
  rewrite bool_decide_eq_true_2 by (rewrite Hfee; eauto).
  destruct feeKey; [congruence|]. simpl.
  eexists. split; [reflexivity|].
  intros Hloc q Hq.
  rewrite (getFeeAmount_requested c _ (applyFrom p) fee q Hfee Hloc Hq).
  reflexivity.
Qed.

Lemma application_fee_key_and_amount_witness :
  (exists r, calculate Sample.calc Sample.request = Return r) /\
  exists feeKey,
    getFeeKey Sample.skilled_worker "outside_uk" = Some feeKey /\
    selected_fee_key (location_word "outside_uk")
      ["skilled_worker_outside"; "skilled_worker_inside"] feeKey /\
    forall r fee,
      calculate Sample.calc Sample.request = Return r ->
      fees Sample.calc !! feeKey = Some fee ->
      feeKey <> "" ->
      exists cost,
        head (breakdown r) = Some (mkItem (application_label (1 + 0)) cost) /\
        ("outside_uk" = "inside_uk" \/ "outside_uk" = "outside_uk" ->
         forall q, requested_amount fee "outside_uk" = Some q ->
           (cost == q * inject_Z (1 + 0))%Q).
Proof.
  split; [eexists; vm_compute; reflexivity|].
  apply (application_fee_key_and_amount
           Sample.calc Sample.request Sample.skilled_worker
           ["skilled_worker_outside"; "skilled_worker_inside"]);
    [vm_compute; reflexivity | reflexivity | discriminate].
Defined.

(** Sanity checks of the key selection and of the fallback. *)
Example getFeeKey_first_match :
  getFeeKey Sample.skilled_worker "inside_uk" = Some "skilled_worker_inside"
  /\ getFeeKey Sample.skilled_worker "outside_uk" = Some "skilled_worker_outside"
  /\ getFeeKey Sample.student "inside_uk" = Some "student".
Proof. vm_compute. auto. Qed.

Example getFeeAmount_fallback :
  getFeeAmount Sample.calc "skilled_worker_outside" "inside_uk" = Some 719%Q
  /\ getFeeAmount Sample.calc "skilled_worker_inside" "outside_uk" = Some 827%Q
  /\ getFeeAmount Sample.calc "priority" "outside_uk" = Some 250%Q.
Proof. vm_compute. auto. Qed.

(** *** Failures *)

Lemma find_route_None c routeId :
  find_route c routeId = None
  <-> forall route, In route (routes c) -> route_id route <> Some routeId.
Proof.
  unfold find_route. split.
  - intros H route Hin. apply (find_none _ _ H) in Hin.
    apply bool_decide_eq_false in Hin. exact Hin.
  - intros H. induction (routes c) as [|x l IH]; simpl; [reflexivity|].
    rewrite bool_decide_eq_false_2 by (apply H; left; reflexivity).
    apply IH. intros route Hin. apply H. right. exact Hin.
Qed.

Lemma calculate_unknown_route c p :
  find_route c (routeId p) = None ->
  calculate c p = Throw (Error "Route not found").
Proof. intros H. unfold calculate. rewrite H. reflexivity. Qed.

(** The extras a request bills: the entries of the fee table that
    [calculate] reads without a guard. *)
Definition billed_extras (route : Route) (p : Params) : list string :=
  (if addPriority_of p && array_includes (extras_supported route) "priority"
   then ["priority"] else [])
  ++ (if addSuperPriority_of p
         && array_includes (extras_supported route) "super_priority"
      then ["super_priority"] else [])
  ++ (if array_includes (extras_supported route) "citizenship_ceremony"
      then ["citizenship_ceremony"] else []).

(** Case analysis on what the three unguarded reads find. *)
Ltac billed_cases c p route :=
  unfold billed_extras, priority_step, super_priority_step,
    ceremony_step, getPriorityFee, getSuperPriorityFee;
  destruct (addPriority_of p && array_includes (extras_supported route) "priority");
  destruct (addSuperPriority_of p
            && array_includes (extras_supported route) "super_priority");
  destruct (array_includes (extras_supported route) "citizenship_ceremony");
  destruct (fees c !! "priority") eqn:?;
  destruct (fees c !! "super_priority") eqn:?;
  destruct (fees c !! "citizenship_ceremony") eqn:?;
  simpl.

(** With a loaded route the call returns or throws a [TypeError]; it never
    reports a missing route. *)
Lemma calculate_known_route_cases c p route :
  find_route c (routeId p) = Some route ->
  (exists r, calculate c p = Return r) \/ calculate c p = Throw TypeError.
Proof.
  intros Hr. unfold calculate. rewrite Hr.
  billed_cases c p route; eauto.
Qed.

(** X1.  The call throws [Error("Route not found")] exactly when no loaded
    route carries the requested identifier. *)
Theorem route_not_found_iff c p :
  calculate c p = Throw (Error "Route not found")
  <-> forall route, In route (routes c) -> route_id route <> Some (routeId p).
Proof.
  rewrite <- find_route_None. split; [|apply calculate_unknown_route].
  destruct (find_route c (routeId p)) as [route|] eqn:Hr; [|reflexivity].
  destruct (calculate_known_route_cases c p route Hr) as [[r H] | H];
    rewrite H; discriminate.
Qed.

(** X2.  For an identifier that a loaded route carries, the call returns a
    breakdown when every billed extra has its fee-table entry, and throws a
    [TypeError] when one has none. *)
Theorem calculate_known_route c p route :
  find_route c (routeId p) = Some route ->
  ((forall key, In key (billed_extras route p) -> is_Some (fees c !! key))
     -> exists r, calculate c p = Return r) /\
  ((exists key, In key (billed_extras route p) /\ fees c !! key = None)
     -> calculate c p = Throw TypeError).
Proof.
  intros Hr. unfold calculate. rewrite Hr.
  billed_cases c p route;
    (split; [intros H | intros (key & Hin & Hk)]);
    try (eexists; reflexivity); try reflexivity;
    try (exfalso; simpl in Hin; intuition (subst; congruence));
    exfalso;
    try (destruct (H "priority") as [? ?]; [simpl; tauto | congruence]);
    try (destruct (H "super_priority") as [? ?]; [simpl; tauto | congruence]);
    try (destruct (H "citizenship_ceremony") as [? ?]; [simpl; tauto | congruence]).
Qed.

Lemma calculate_known_route_witness :
  ((forall key, In key (billed_extras Sample.skilled_worker Sample.request_priority)
      -> is_Some (fees Sample.calc !! key))
     -> exists r, calculate Sample.calc Sample.request_priority = Return r) /\
  ((exists key, In key (billed_extras Sample.skilled_worker Sample.request_priority)
                /\ fees Sample.calc !! key = None)
     -> calculate Sample.calc Sample.request_priority = Throw TypeError).
Proof.
  apply (calculate_known_route Sample.calc Sample.request_priority
           Sample.skilled_worker).
  vm_compute. reflexivity.
Defined.

Example calculate_unknown_sample :
  calculate Sample.calc Sample.request_unknown = Throw (Error "Route not found").
Proof. vm_compute. reflexivity. Qed.

(** C6.  The request names a loaded route, yet the call throws a
    [TypeError] and returns no breakdown: the route lists
    [citizenship_ceremony] and the fee table has no such entry. *)
Theorem known_route_without_breakdown :
  find_route (Sample.calc_without "citizenship_ceremony")
    (routeId Sample.request_citizenship) = Some Sample.citizenship
  /\ calculate (Sample.calc_without "citizenship_ceremony")
       Sample.request_citizenship = Throw TypeError.
Proof. vm_compute. auto. Qed.

(** C7.  A fee-table entry that is missing does not always count as zero:
    without the [priority], [super_priority] or [citizenship_ceremony]
    entry a request that bills it throws a [TypeError], whereas without
    the application-fee entry the call returns and leaves that line out. *)
Theorem missing_extra_entry_throws :
  calculate (Sample.calc_without "priority") Sample.request_priority
    = Throw TypeError
  /\ calculate (Sample.calc_without "super_priority") Sample.request_priority
    = Throw TypeError
  /\ calculate (Sample.calc_without "citizenship_ceremony")
       Sample.request_citizenship = Throw TypeError
  /\ calculate (Sample.calc_without "skilled_worker_outside") Sample.request
    = Return {| breakdown := [mkItem "Immigration Health Surcharge" (2070 # 2)];
                total := 2070 # 2;
                lastReviewed := Some "2024-01-15" |}.
Proof. vm_compute. auto. Qed.

End CalculatorFacts.

(** ** The validation script *)

Module ValidateFacts.
Import Validate.

Definition unparseable {A} (f : file A) : bool :=
  match f with
  | Parsed _ => false
  | Unparseable _ => true
  end.

(** Every step of the script only ever adds to the error counter. *)
Lemma error_errors msg st : errors (error msg st) = S (errors st).
Proof. reflexivity. Qed.

Lemma warn_errors msg st : errors (warn msg st) = errors st.
Proof. reflexivity. Qed.

Lemma check_fee_refs_errors routes fees st :
  errors (check_fee_refs routes fees st)
  = (errors st + length (missingFees routes fees))%nat.
Proof.
  unfold check_fee_refs. revert st.
  induction (missingFees routes fees) as [|msg l IH]; intros st; simpl.
  - lia.
  - rewrite IH, error_errors. lia.
Qed.

Lemma check_content_errors e routes st :
  errors (check_content e routes st) = errors st.
Proof.
  unfold check_content. revert st.
  induction (filter _ routes) as [|route l IH]; intros st; simpl.
  - reflexivity.
  - rewrite IH. destruct (existsSync e _); reflexivity.
Qed.

Lemma check_unique_errors routes st :
  errors (check_unique routes st)
  = (errors st + if (0 <? length (duplicates (map route_id routes)))%nat
                 then 1 else 0)%nat.
Proof. unfold check_unique. case_match; simpl; lia. Qed.

(** The fields step 4 reports: each required field of each route that is
    undefined. *)
Definition missing_fields (routes : list Route) : list (Route * string) :=
  flat_map (fun route =>
    map (pair route) (List.filter (field_undefined route) requiredFields)) routes.

Lemma check_required_errors routes st :
  errors (check_required routes st)
  = (errors st + length (missing_fields routes))%nat.
Proof.
  unfold check_required, missing_fields.
  generalize requiredFields. intros fields. revert st.
  induction routes as [|route routes IH]; intros st; simpl; [lia|].
  rewrite IH, length_app, length_map. clear IH.
  enough (forall st,
    errors (fold_left (fun st field =>
              if field_undefined route field
              then error ("Route " +:+ show_id (route_id route)
                          +:+ " missing required field: " +:+ field) st
              else st) fields st)
    = (errors st + length (List.filter (field_undefined route) fields))%nat)
    as -> by lia.
  clear st. induction fields as [|field fields IH]; intros st; simpl; [lia|].
  rewrite IH. destruct (field_undefined route field); simpl; lia.
Qed.

(** With three files that parse, the error counter at exit is the number of
    findings of steps 2 to 4; step 5 only warns. *)
Lemma run_parsed_errors e routes fees rules :
  routes_json e = Parsed routes ->
  fees_json e = Parsed fees ->
  rules_json e = Parsed rules ->
  errors (snd (run e))
  = ((if (0 <? length (duplicates (map route_id routes)))%nat then 1 else 0)
     + length (missingFees routes fees)
     + length (missing_fields routes))%nat.
Proof.
  intros H1 H2 H3. unfold run. rewrite H1, H2, H3. simpl.
  rewrite check_content_errors, check_required_errors, check_fee_refs_errors,
    check_unique_errors. simpl. lia.
Qed.

(** The status of the summary is decided by the error counter alone. *)
Lemma summary_status st :
  (summary st = 1%Z <-> (0 < errors st)%nat)
  /\ (summary st = 0%Z <-> errors st = 0%nat).
Proof.
  unfold summary.
  destruct (errors st) as [|n], (warnings st) as [|w]; simpl;
    split; split; intros; (lia || discriminate || reflexivity).
Qed.

(** C9.  The script exits with status 1 exactly when the error counter is
    positive at exit, and with status 0 exactly when it is zero (warnings
    or not); an input file that cannot be read or parsed is counted as an
    error, so the script then exits with status 1. *)
Theorem exit_status_iff_errors (e : env) :
  (fst (run e) = 1%Z <-> (0 < errors (snd (run e)))%nat)
  /\ (fst (run e) = 0%Z <-> errors (snd (run e)) = 0%nat)
  /\ (unparseable (routes_json e) || unparseable (fees_json e)
      || unparseable (rules_json e) = true
      -> fst (run e) = 1%Z /\ (0 < errors (snd (run e)))%nat).
Proof.
  unfold run.
  destruct (routes_json e) as [routes|m1], (fees_json e) as [fees|m2],
    (rules_json e) as [rules|m3]; simpl;
    try (split; [split; intros; (lia || reflexivity)
                | split; [split; intros; (lia || discriminate)
                         | intros; split; (lia || reflexivity)]]).
  destruct (summary_status
              (check_content e routes
                 (check_required routes
                    (check_fee_refs routes fees
                       (check_unique routes initial))))) as [H1 H0].
  split; [exact H1 | split; [exact H0 | discriminate]].
Qed.

(** Three runs: clean tables; a duplicate identifier, a dangling fee key
    and no content files; an unreadable fee table. *)
Definition clean_env : env :=
  {| dirname := "/site/scripts";
     routes_json := Parsed (Calculator.routes Sample.calc);
     fees_json := Parsed Sample.fee_table;
     rules_json := Parsed Sample.rule_table;
     existsSync := fun _ => true |}.

Definition warnings_only_env : env :=
  {| dirname := "/site/scripts";
     routes_json := Parsed (Calculator.routes Sample.calc);
     fees_json := Parsed Sample.fee_table;
     rules_json := Parsed Sample.rule_table;
     existsSync := fun _ => false |}.

Definition broken_env : env :=
  {| dirname := "/site/scripts";
     routes_json :=
       Parsed (Calculator.routes Sample.calc ++ [Sample.visitor])%list;
     fees_json := Parsed (delete "student" Sample.fee_table);
     rules_json := Parsed Sample.rule_table;
     existsSync := fun _ => true |}.

Definition unreadable_env : env :=
  {| dirname := "/site/scripts";
     routes_json := Parsed (Calculator.routes Sample.calc);
     fees_json := Unparseable "Unexpected end of JSON input";
     rules_json := Parsed Sample.rule_table;
     existsSync := fun _ => true |}.

Example run_clean : run clean_env = (0%Z, mkState 0 0 []).
Proof. vm_compute. reflexivity. Qed.

Example run_warnings_only :
  fst (run warnings_only_env) = 0%Z
  /\ errors (snd (run warnings_only_env)) = 0%nat
  /\ warnings (snd (run warnings_only_env)) = 3%nat.
Proof. vm_compute. auto. Qed.

Example run_broken :
  fst (run broken_env) = 1%Z
  /\ errors (snd (run broken_env)) = 2%nat
  /\ warnings (snd (run broken_env)) = 0%nat.
Proof. vm_compute. auto. Qed.

Example run_unreadable :
  fst (run unreadable_env) = 1%Z /\ errors (snd (run unreadable_env)) = 2%nat.
Proof. vm_compute. auto. Qed.

End ValidateFacts.

(** ** The data loader *)

Module LoaderFacts.
Import JS DataLoader.
Local Open Scope list_scope.

(** [d] times [../]. *)
Fixpoint up (d : nat) : string :=
  match d with
  | O => ""
  | S d' => "../" +:+ up d'
  end.

Lemma endsWith_suffix (s suffix : string) :
  endsWith s suffix = true <-> exists pre, s = pre +:+ suffix.
Proof.
  induction s as [|a s IH]; cbn [endsWith].
  - rewrite orb_false_r, String.eqb_eq. split.
    + intros <-. exists "". reflexivity.
    + intros [[|b pre] H]; [exact H | discriminate].
  - rewrite orb_true_iff, String.eqb_eq, IH. split.
    + intros [<- | [pre ->]]; [exists "" | exists (String a pre)]; reflexivity.
    + intros [[|b pre] H]; [left; exact H | right].
      rewrite JSFacts.append_cons in H. injection H as _ ->. eauto.
Qed.

(** X3.  [getBasePath] climbs one [../] per directory level only for a
    pathname that ends in a slash and has two, three or four slashes (one
    to three levels below the root); for every other pathname, a file URL
    or a page four or more levels deep included, it answers [./]. *)
Theorem getBasePath_levels (pathname : string) :
  getBasePath pathname
  = if endsWith pathname "/"
       && (2 <=? count_slashes pathname)%Z && (count_slashes pathname <=? 4)%Z
    then up (Z.to_nat (count_slashes pathname - 1))
    else "./".
Proof.
  unfold getBasePath.
  destruct (String.eqb_spec pathname "/") as [->|Hne]; [reflexivity|].
  rewrite orb_false_r.
  destruct (endsWith pathname "/"); simpl;
    repeat (match goal with
            | |- context [(?a =? ?b)%Z] => destruct (Z.eqb_spec a b)
            | |- context [(?a <=? ?b)%Z] => destruct (Z.leb_spec a b)
            end; simpl); try reflexivity; try lia.
  all: match goal with
       | H : (_ - 1 = ?k)%Z |- _ =>
           replace (count_slashes pathname - 1)%Z with k by lia; reflexivity
       end.
Qed.

Section LoadFacts.
Context {A : Type} (truthy : A -> bool).
Implicit Types (net : string -> response (A:=A)) (st : state (A:=A)).

(** Every cached document was requested from the network. *)
Definition cache_fetched st : Prop :=
  forall url, is_Some (cache st !! url) -> In url (fetched st).

Lemma fetch_and_store_cases net url st :
  (exists data,
     fetch_and_store net url st
     = (Return data,
        {| cache := <[url := data]> (cache st);
           fetched := fetched st ++ [url]; logged := logged st |}))
  \/ (exists e,
        fetch_and_store net url st
        = (Throw e,
           {| cache := cache st; fetched := fetched st ++ [url];
              logged := logged st ++ [e] |})).
Proof.
  unfold fetch_and_store, fails.
  destruct (net url) as [e | [|] status [data | e]]; simpl; eauto.
Qed.

(** A call of [load] is a cache hit that leaves the loader as it was, a
    request that stores its document, or a request that fails. *)
Lemma load_cases net url st :
  (exists data, cache st !! url = Some data /\ truthy data = true
                /\ load truthy net url st = (Return data, st))
  \/ (exists data,
        load truthy net url st
        = (Return data,
           {| cache := <[url := data]> (cache st);
              fetched := fetched st ++ [url]; logged := logged st |}))
  \/ (exists e,
        load truthy net url st
        = (Throw e,
           {| cache := cache st; fetched := fetched st ++ [url];
              logged := logged st ++ [e] |})).
Proof.
  unfold load.
  destruct (cache st !! url) as [data|] eqn:E;
    [destruct (truthy data) eqn:T; [left; eauto|]|];
    right; apply fetch_and_store_cases.
Qed.

(** X4.  After a call of [load] has returned a truthy document, a second
    call for the same URL returns that document and leaves the loader
    untouched: no request is sent, whatever the network would answer. *)
Theorem load_again_is_cached net net' url st data st1 :
  load truthy net url st = (Return data, st1) ->
  truthy data = true ->
  load truthy net' url st1 = (Return data, st1).
Proof.
  intros H T.
  assert (cache st1 !! url = Some data) as E.
  { destruct (load_cases net url st)
      as [(d & E & _ & H') | [(d & H') | (e & H')]];
      rewrite H' in H; simplify_eq; [assumption | apply lookup_insert_eq]. }
  unfold load. rewrite E, T. reflexivity.
Qed.

(** X5.  A call of [load] that throws has sent exactly one request, left the
    cache as it was and logged the error it throws: nothing is retried and
    nothing is cached on failure. *)
Theorem load_failure_effects net url st e st1 :
  load truthy net url st = (Throw e, st1) ->
  cache st1 = cache st
  /\ fetched st1 = fetched st ++ [url]
  /\ logged st1 = logged st ++ [e].
Proof.
  intros H.
  destruct (load_cases net url st)
    as [(d & _ & _ & H') | [(d & H') | (e' & H')]];
    rewrite H' in H; simplify_eq. auto.
Qed.

(** X6.  A document that is falsy (the JSON values [null], [false], [0] and
    the empty string) is stored but never served from the cache: the next
    call for its URL sends a new request. *)
Theorem load_falsy_refetches net net' url st data st1 :
  load truthy net url st = (Return data, st1) ->
  truthy data = false ->
  cache st1 !! url = Some data
  /\ fetched (snd (load truthy net' url st1)) = fetched st1 ++ [url].
Proof.
  intros H T.
  assert (cache st1 !! url = Some data) as E.
  { destruct (load_cases net url st)
      as [(d & E & _ & H') | [(d & H') | (e & H')]];
      rewrite H' in H; simplify_eq; [assumption | apply lookup_insert_eq]. }
  split; [exact E|]. unfold load. rewrite E, T.
  destruct (fetch_and_store_cases net' url st1) as [(d & ->) | (e & ->)];
    reflexivity.
Qed.

(** X7.  A call of [load] sends at most one request, and only for its own
    URL; it changes no other cache entry, and it keeps the invariant that
    every cached document was requested from the network. *)
Theorem load_is_local net url st :
  let st1 := snd (load truthy net url st) in
  (fetched st1 = fetched st \/ fetched st1 = fetched st ++ [url])
  /\ (forall url', url' <> url -> cache st1 !! url' = cache st !! url')
  /\ (cache_fetched st -> cache_fetched st1).
Proof.
  cbv zeta.
  destruct (load_cases net url st)
    as [(d & _ & _ & ->) | [(d & ->) | (e & ->)]]; simpl.
  - auto.
  - split; [auto|]. split.
    + intros url' Hne. apply lookup_insert_ne. congruence.
    + intros Hinv url'. simpl. rewrite in_app_iff.
      destruct (decide (url' = url)) as [->|Hne]; [simpl; auto|].
      rewrite lookup_insert_ne by congruence. auto.
  - split; [auto|]. split; [auto|].
    intros Hinv url'. simpl. rewrite in_app_iff. auto.
Qed.

(** X8.  After [clearCache] every URL is requested anew, whatever was
    cached before. *)
Theorem load_after_clearCache net url st :
  fetched (snd (load truthy net url (clearCache st))) = fetched st ++ [url].
Proof.
  unfold load, clearCache. simpl. rewrite lookup_empty.
  destruct (fetch_and_store_cases net url
              {| cache := ∅; fetched := fetched st; logged := logged st |})
    as [(d & ->) | (e & ->)]; reflexivity.
Qed.

End LoadFacts.

(** A network of numeric documents, to run [load] on: [ok.json] holds [7],
    [zero.json] holds [0], [bad.json] is not JSON, anything else is a 404. *)
Definition number_truthy (n : Z) : bool := negb (n =? 0)%Z.

Definition sample_net (url : string) : response (A:=Z) :=
  if String.eqb url "./data/ok.json" then Responds true 200 (Return 7%Z)
  else if String.eqb url "./data/zero.json" then Responds true 200 (Return 0%Z)
  else if String.eqb url "./data/bad.json"
  then Responds true 200 (Throw (Error "Unexpected token"))
  else Responds false 404 (Throw (Error "Unexpected token")).

Definition offline (url : string) : response (A:=Z) :=
  Rejects (Error "Failed to fetch").

Lemma load_again_is_cached_witness :
  exists st1,
    load number_truthy sample_net "./data/ok.json" initial = (Return 7%Z, st1)
    /\ load number_truthy offline "./data/ok.json" st1 = (Return 7%Z, st1).
Proof.
  eexists. split; [reflexivity|].
  apply (load_again_is_cached number_truthy sample_net offline
           "./data/ok.json" initial); reflexivity.
Defined.

Lemma load_failure_effects_witness :
  exists e (st1 : @state Z),
    load number_truthy sample_net "./data/none.json" initial = (Throw e, st1)
    /\ cache st1 = cache (@initial Z)
    /\ fetched st1 = fetched (@initial Z) ++ ["./data/none.json"]
    /\ logged st1 = logged (@initial Z) ++ [e].
Proof.
  eexists _, _. split; [reflexivity|].
  apply (load_failure_effects number_truthy sample_net "./data/none.json" initial).
  reflexivity.
Defined.

Lemma load_falsy_refetches_witness :
  exists st1,
    load number_truthy sample_net "./data/zero.json" initial = (Return 0%Z, st1)
    /\ cache st1 !! "./data/zero.json" = Some 0%Z
    /\ fetched (snd (load number_truthy offline "./data/zero.json" st1))
       = fetched st1 ++ ["./data/zero.json"].
Proof.
  eexists. split; [reflexivity|].
  apply (load_falsy_refetches number_truthy sample_net offline
           "./data/zero.json" initial); reflexivity.
Defined.

(** X9.  [getRouteById] and [calculate] look a route up in the same way:
    over the routes that [getRoutes] returns, [getRouteById] answers [null]
    exactly when [calculate] throws [Error("Route not found")]. *)
Theorem getRouteById_null_iff_not_found pathname net st routes st1 fees rules p :
  getRoutes pathname net st = (Return routes, st1) ->
  fst (getRouteById pathname net (Calculator.routeId p) st) = Return None
  <-> Calculator.calculate (Calculator.mk routes fees rules) p
      = Throw (Error "Route not found").
Proof.
  intros H. unfold getRouteById. rewrite H. simpl.
  change (find _ routes)
    with (Calculator.find_route (Calculator.mk routes fees rules)
            (Calculator.routeId p)).
  split.
  - intros [= E]. apply CalculatorFacts.calculate_unknown_route, E.
  - intros Hc.
    destruct (Calculator.find_route _ _) as [route|] eqn:E; [|reflexivity].
    destruct (CalculatorFacts.calculate_known_route_cases _ p route E)
      as [[r Hr] | Hr]; rewrite Hr in Hc; discriminate.
Qed.

Definition routes_net (url : string) : response (A:=list Route) :=
  if String.eqb url "../../data/routes.json"
  then Responds true 200 (Return (Calculator.routes Sample.calc))
  else Responds false 404 (Throw (Error "Unexpected token")).

Lemma getRouteById_null_iff_not_found_witness :
  exists st1,
    getRoutes "/uk/work/" routes_net initial
    = (Return (Calculator.routes Sample.calc), st1)
    /\ (fst (getRouteById "/uk/work/" routes_net "no-such-route" initial)
          = Return None
        <-> Calculator.calculate Sample.calc Sample.request_unknown
            = Throw (Error "Route not found")).
Proof.
  eexists. split; [reflexivity|].
  eapply (getRouteById_null_iff_not_found "/uk/work/" routes_net initial
            (Calculator.routes Sample.calc) _ Sample.fee_table Sample.rule_table
            Sample.request_unknown).
  reflexivity.
Defined.

End LoaderFacts.

(** ** The validation script: what it accepts *)

Module ValidateChecks.
Import Validate ValidateFacts.
Local Open Scope list_scope.

(** *** Step 2 finds a duplicate exactly when there is one *)

Lemma indexOf_range l id :
  indexOf l id = (-1)%Z \/ (0 <= indexOf l id < Z.of_nat (length l))%Z.
Proof.
  induction l as [|x l IH]; simpl; [auto|].
  case_bool_decide; [right; lia|].
  destruct (Z.ltb_spec (indexOf l id) 0); [auto | right; lia].
Qed.









(** *** The script accepts exactly the tables that satisfy its checks *)


Lemma flat_map_nil {A B} (f : A -> list B) (l : list A) :
  flat_map f l = [] <-> forall x, In x l -> f x = [].
Proof.
  induction l as [|a l IH]; simpl.
  - split; [intros _ ? [] | reflexivity].
  - split.
    + intros [Ha Hl]%app_eq_nil x [<-|Hx]; [exact Ha | exact (proj1 IH Hl x Hx)].
    + intros H. rewrite (H a) by auto. simpl. apply IH. auto.
Qed.

Lemma missingFees_nil routes fees :
  missingFees routes fees = []
  <-> forall route feeItems feeKey,
        In route routes -> fee_items route = Some feeItems ->
        In feeKey feeItems -> is_Some (fees !! feeKey).
Proof.
  unfold missingFees. rewrite flat_map_nil. split.
  - intros H route feeItems feeKey Hr Hf Hk. specialize (H route Hr).
    rewrite Hf, flat_map_nil in H. specialize (H feeKey Hk).
    case_bool_decide; [assumption | discriminate].
  - intros H route Hr. destruct (fee_items route) as [feeItems|] eqn:Hf;
      [|reflexivity].
    apply flat_map_nil. intros feeKey Hk.
    rewrite bool_decide_eq_true_2 by eauto. reflexivity.
Qed.




(** *** Findings and what is written *)

(** Every finding counted so far has its line on [stderr]. *)
Definition reported (st : state) : Prop :=
  length (stderr st) = (errors st + warnings st)%nat.

Lemma error_reported msg st : reported st -> reported (error msg st).
Proof. unfold reported, error. simpl. rewrite length_app. simpl. lia. Qed.

Lemma warn_reported msg st : reported st -> reported (warn msg st).
Proof. unfold reported, warn. simpl. rewrite length_app. simpl. lia. Qed.

Lemma fold_reported {X} (step : state -> X -> state) (l : list X) st :
  (forall st x, reported st -> reported (step st x)) ->
  reported st -> reported (fold_left step l st).
Proof.
  intros Hstep. revert st. induction l as [|x l IH]; simpl; auto.
Qed.

Create HintDb validate.
#[local] Hint Resolve error_reported warn_reported : validate.

Lemma checks_reported e routes fees st :
  reported st ->
  reported (check_content e routes
              (check_required routes
                 (check_fee_refs routes fees (check_unique routes st)))).
Proof.
  intros H.
  unfold check_content, check_required, check_fee_refs, check_unique.
  apply fold_reported; [intros; case_match; auto with validate|].
  apply fold_reported.
  { intros. apply fold_reported; [intros; case_match; auto with validate|].
    assumption. }
  apply fold_reported; [auto with validate|].
  case_match; auto with validate.
Qed.

(** X12.  When the script exits, [stderr] holds exactly one line for each
    error and each warning it counted: no finding is counted without being
    written, and none is written without being counted. *)
Theorem every_finding_is_reported (e : env) :
  length (stderr (snd (run e)))
  = (errors (snd (run e)) + warnings (snd (run e)))%nat.
Proof.
  change (reported (snd (run e))). unfold run.
  destruct (routes_json e) as [routes|m1], (fees_json e) as [fees|m2],
    (rules_json e) as [rules|m3]; simpl;
    try (apply checks_reported; reflexivity);
    repeat apply error_reported; reflexivity.
Qed.

(** *** Content files *)

Lemma summary_by_errors st :
  summary st = if (0 <? errors st)%nat then 1%Z else 0%Z.
Proof.
  unfold summary. destruct (errors st), (warnings st); reflexivity.
Qed.

Lemma check_fee_refs_warnings routes fees st :
  warnings (check_fee_refs routes fees st) = warnings st.
Proof.
  unfold check_fee_refs. revert st.
  induction (missingFees routes fees) as [|msg l IH]; intros st; simpl;
    [reflexivity|]. rewrite IH. reflexivity.
Qed.

Lemma check_required_warnings routes st :
  warnings (check_required routes st) = warnings st.
Proof.
  unfold check_required. generalize requiredFields. intros fields. revert st.
  induction routes as [|route routes IH]; intros st; simpl; [reflexivity|].
  rewrite IH. clear IH. revert st.
  induction fields as [|field fields IH]; intros st; simpl; [reflexivity|].
  rewrite IH. case_match; reflexivity.
Qed.

Lemma check_unique_warnings routes st :
  warnings (check_unique routes st) = warnings st.
Proof. unfold check_unique. case_match; reflexivity. Qed.

(** The indexable routes whose content file [existsSync] does not find. *)
Definition without_content (e : env) (routes : list Route) : list Route :=
  List.filter (fun r => bool_decide (indexable r = Some true)
                        && negb (existsSync e (contentPath e r))) routes.

Lemma check_content_warnings e routes st :
  warnings (check_content e routes st)
  = (warnings st + length (without_content e routes))%nat.
Proof.
  unfold check_content, without_content. revert st.
  induction routes as [|r routes IH]; intros st; simpl; [lia|].
  rewrite filter_cons.
  destruct (decide (indexable r = Some true)) as [Hi|Hi].
  - rewrite bool_decide_eq_true_2 by exact Hi. simpl.
    rewrite IH. destruct (existsSync e (contentPath e r)); simpl; lia.
  - rewrite bool_decide_eq_false_2 by exact Hi. simpl. apply IH.
Qed.

(** The environment with another file system. *)
Definition with_files (e : env) (exists' : string -> bool) : env :=
  {| dirname := dirname e; routes_json := routes_json e;
     fees_json := fees_json e; rules_json := rules_json e;
     existsSync := exists' |}.

(** X13.  With three files that parse, the script warns once for each
    indexable route whose content file is missing and for nothing else, and
    the content files have no influence on the exit status or on the number
    of errors. *)
Theorem missing_content_only_warns e routes fees rules :
  routes_json e = Parsed routes ->
  fees_json e = Parsed fees ->
  rules_json e = Parsed rules ->
  warnings (snd (run e)) = length (without_content e routes)
  /\ forall exists',
       fst (run (with_files e exists')) = fst (run e)
       /\ errors (snd (run (with_files e exists'))) = errors (snd (run e)).
Proof.
  intros E1 E2 E3. split.
  - unfold run. rewrite E1, E2, E3. simpl.
    rewrite check_content_warnings, check_required_warnings,
      check_fee_refs_warnings, check_unique_warnings. reflexivity.
  - intros exists'.
    assert (errors (snd (run (with_files e exists'))) = errors (snd (run e)))
      as Herr.
    { rewrite (run_parsed_errors e routes fees rules E1 E2 E3),
        (run_parsed_errors (with_files e exists') routes fees rules E1 E2 E3).
      reflexivity. }
    split; [|exact Herr].
    assert (forall e', routes_json e' = Parsed routes ->
            fees_json e' = Parsed fees -> rules_json e' = Parsed rules ->
            fst (run e') = summary (snd (run e'))) as Hs.
    { intros e' H1 H2 H3. unfold run. rewrite H1, H2, H3. reflexivity. }
    rewrite (Hs e E1 E2 E3), (Hs (with_files e exists') E1 E2 E3),
      !summary_by_errors, Herr. reflexivity.
Qed.

Lemma missing_content_only_warns_witness :
  warnings (snd (run warnings_only_env))
  = length (without_content warnings_only_env (Calculator.routes Sample.calc))
  /\ forall exists',
       fst (run (with_files warnings_only_env exists'))
       = fst (run warnings_only_env)
       /\ errors (snd (run (with_files warnings_only_env exists')))
          = errors (snd (run warnings_only_env)).
Proof.
  apply (missing_content_only_warns warnings_only_env
           (Calculator.routes Sample.calc) Sample.fee_table Sample.rule_table);
    reflexivity.
Defined.

(** *** Fee entries that no route declares *)

(** The environment with another fee table. *)
Definition with_fees (e : env) (fees : gmap string Fee) : env :=
  {| dirname := dirname e; routes_json := routes_json e;
     fees_json := Parsed fees; rules_json := rules_json e;
     existsSync := existsSync e |}.

Lemma missingFees_delete routes fees key :
  (forall route feeItems, In route routes ->
     fee_items route = Some feeItems -> ~ In key feeItems) ->
  missingFees routes (delete key fees) = missingFees routes fees.
Proof.
  intros H. unfold missingFees.
  induction routes as [|route routes IH]; simpl; [reflexivity|].
  rewrite IH by (intros; eapply H; eauto; right; assumption). f_equal.
  destruct (fee_items route) as [feeItems|] eqn:Hf; [|reflexivity].
  specialize (H route feeItems (or_introl eq_refl) Hf). clear Hf IH.
  induction feeItems as [|feeKey feeItems IHf]; simpl; [reflexivity|].
  rewrite IHf by (intros ?; apply H; right; assumption). f_equal.
  rewrite lookup_delete_ne by (intros ->; apply H; left; reflexivity).
  reflexivity.
Qed.

(** X14.  The script only looks up the fee keys that routes declare in
    [fee_items]: removing any other entry from the fee table, such as
    [priority], [super_priority] or [citizenship_ceremony], changes nothing
    in what the script counts, writes or exits with. *)
Theorem run_ignores_undeclared_fees e routes fees key :
  routes_json e = Parsed routes ->
  fees_json e = Parsed fees ->
  (forall route feeItems, In route routes ->
     fee_items route = Some feeItems -> ~ In key feeItems) ->
  run (with_fees e (delete key fees)) = run e.
Proof.
  intros E1 E2 H. unfold run, with_fees. simpl. rewrite E1, E2. simpl.
  destruct (rules_json e) as [rules|m]; simpl; [|reflexivity].
  unfold check_fee_refs. rewrite (missingFees_delete routes fees key H).
  reflexivity.
Qed.

Lemma run_ignores_undeclared_fees_witness :
  run (with_fees clean_env (delete "priority" Sample.fee_table)) = run clean_env
  /\ Calculator.calculate (Sample.calc_without "priority") Sample.request_priority
     = JS.Throw JS.TypeError.
Proof.
  split; [|vm_compute; reflexivity].
  apply (run_ignores_undeclared_fees clean_env (Calculator.routes Sample.calc)
           Sample.fee_table "priority"); [reflexivity | reflexivity |].
  intros route feeItems Hr Hf Hk. simpl in Hr.
  repeat (destruct Hr as [<-|Hr]; [injection Hf as <-; simpl in Hk;
    repeat (destruct Hk as [Hk|Hk]; [discriminate Hk|]); exact Hk|]).
  exact Hr.
Defined.

End ValidateChecks.

(** ** The calculator: shape, bounds and dependence on the request *)

Module CalculatorShape.
Import JS JSFacts Calculator CalculatorFacts.
Local Open Scope list_scope.

(** The labels a breakdown can carry, in the order of the steps. *)
Definition labels (totalApplicants : Z) : list string :=
  [application_label totalApplicants; "Immigration Health Surcharge";
   "Priority Service"; "Super Priority Service"; "Citizenship Ceremony";
   "Life in the UK Test"].

Ltac at_most_one :=
  repeat case_match; simplify_eq/=;
  solve [apply sublist_nil_l | apply sublist_skip, sublist_nil
        | reflexivity].

Lemma application_lines_one c route p :
  map item (application_lines c route p)
    `sublist_of` [application_label (totalApplicants p)].
Proof. unfold application_lines, application_step. at_most_one. Qed.

Lemma ihs_lines_one c route p :
  map item (ihs_lines c route p) `sublist_of` ["Immigration Health Surcharge"].
Proof. unfold ihs_lines, ihs_step. at_most_one. Qed.

Lemma priority_lines_one c route p :
  map item (priority_lines c route p) `sublist_of` ["Priority Service"].
Proof. unfold priority_lines, priority_step, getPriorityFee. at_most_one. Qed.

Lemma super_priority_lines_one c route p :
  map item (super_priority_lines c route p)
    `sublist_of` ["Super Priority Service"].
Proof.
  unfold super_priority_lines, super_priority_step, getSuperPriorityFee.
  at_most_one.
Qed.

Lemma ceremony_lines_one c route p :
  map item (ceremony_lines c route p) `sublist_of` ["Citizenship Ceremony"].
Proof. unfold ceremony_lines, ceremony_step. at_most_one. Qed.

Lemma life_in_uk_lines_one p :
  map item (life_in_uk_lines p) `sublist_of` ["Life in the UK Test"].
Proof. unfold life_in_uk_lines, life_in_uk_step. at_most_one. Qed.

(** X15.  The labels of a returned breakdown are a selection, in this
    order, of: application fee, Immigration Health Surcharge, Priority
    Service, Super Priority Service, Citizenship Ceremony, Life in the UK
    Test.  So a breakdown has at most six lines and no label twice. *)
Theorem breakdown_labels_in_order c p r :
  calculate c p = Return r ->
  map item (breakdown r) `sublist_of` labels (totalApplicants p)
  /\ (length (breakdown r) <= 6)%nat.
Proof.
  intros Hc.
  destruct (calculate_Return c p r Hc) as (route & _ & _ & _ & Hr & _).
  assert (map item (breakdown r) `sublist_of` labels (totalApplicants p)) as S.
  { rewrite (calculate_breakdown c p r route Hr Hc), !map_app.
    change (labels (totalApplicants p))
      with ([application_label (totalApplicants p)]
            ++ ["Immigration Health Surcharge"] ++ ["Priority Service"]
            ++ ["Super Priority Service"] ++ ["Citizenship Ceremony"]
            ++ ["Life in the UK Test"]).
    repeat apply sublist_app;
      auto using application_lines_one, ihs_lines_one, priority_lines_one,
        super_priority_lines_one, ceremony_lines_one, life_in_uk_lines_one. }
  split; [exact S|].
  apply sublist_length in S. rewrite length_map in S. exact S.
Qed.

Lemma breakdown_labels_in_order_witness :
  exists r, calculate Sample.calc Sample.request_citizenship = Return r
    /\ map item (breakdown r) `sublist_of` labels 2
    /\ (length (breakdown r) <= 6)%nat.
Proof.
  eexists. split; [vm_compute; reflexivity|].
  apply (breakdown_labels_in_order Sample.calc Sample.request_citizenship).
  vm_compute. reflexivity.
Defined.

(** X16.  Main applicants and dependants are charged alike: two requests
    that differ only in how the same head count is split between
    [applicants] and [dependants] get the same outcome. *)
Theorem calculate_depends_on_head_count c p p' :
  routeId p = routeId p' ->
  applyFrom p = applyFrom p' ->
  duration p = duration p' ->
  addPriority_of p = addPriority_of p' ->
  addSuperPriority_of p = addSuperPriority_of p' ->
  (applicants_of p + dependants_of p = applicants_of p' + dependants_of p')%Z ->
  calculate c p = calculate c p'.
Proof.
  intros H1 H2 H3 H4 H5 H6.
  assert (totalApplicants p = totalApplicants p') as Ht by exact H6.
  unfold calculate, application_step, ihs_step, priority_step,
    super_priority_step, ceremony_step, life_in_uk_step, calculateIHS, heads.
  rewrite H1, H2, H3, H4, H5, H6, Ht. reflexivity.
Qed.

Lemma calculate_depends_on_head_count_witness :
  calculate Sample.calc Sample.request_priority
  = calculate Sample.calc
      {| routeId := "skilled-worker-visa"; applyFrom := "inside_uk";
         duration := 7; applicants := Some 3%Z; dependants := None;
         addPriority := Some true; addSuperPriority := Some true |}.
Proof.
  apply (calculate_depends_on_head_count Sample.calc Sample.request_priority);
    reflexivity.
Defined.

Lemma ihs_lines_without_duration c route p :
  (-6 < duration p <= 0)%Z -> ihs_lines c route p = [].
Proof.
  intros Hm. unfold ihs_lines, ihs_step.
  destruct (_ && _); [|reflexivity].
  destruct (JS.ltb 0 _) eqn:E; [|reflexivity].
  apply ltb_lt in E. rewrite calculateIHS_formula in E.
  rewrite (ceil_div_6_unique (duration p) 0) in E by lia.
  exfalso. revert E. apply Qle_not_lt.
  rewrite Qmult_0_l, Qmult_0_r, Qmult_0_l. apply Qle_refl.
Qed.

(** X17.  A duration of zero months, which is what a form without a
    duration control passes, or of up to five months below zero, bills no
    Immigration Health Surcharge line, whatever the route's IHS policy. *)
Theorem no_ihs_line_without_duration c p r :
  calculate c p = Return r ->
  (-6 < duration p <= 0)%Z ->
  forall it, In it (breakdown r) -> item it <> "Immigration Health Surcharge".
Proof.
  intros Hc Hm it Hin L.
  destruct (calculate_Return c p r Hc) as (route & _ & _ & _ & Hr & _).
  destruct (labelled_line c p r route it Hr Hc) as ([H _] & _).
  specialize (H (conj Hin L)). unfold ihs_lines, ihs_step in H.
  destruct (_ && _); [|destruct H].
  destruct (JS.ltb 0 _) eqn:E; [|destruct H].
  apply ltb_lt in E. rewrite calculateIHS_formula in E.
  rewrite (ceil_div_6_unique (duration p) 0) in E by lia.
  revert E. apply Qle_not_lt.
  rewrite Qmult_0_l, Qmult_0_r, Qmult_0_l. apply Qle_refl.
Qed.

Lemma no_ihs_line_without_duration_witness :
  exists r,
    calculate Sample.calc
      {| routeId := "skilled-worker-visa"; applyFrom := "outside_uk";
         duration := 0; applicants := Some 1%Z; dependants := Some 0%Z;
         addPriority := None; addSuperPriority := None |} = Return r
    /\ forall it, In it (breakdown r) ->
         item it <> "Immigration Health Surcharge".
Proof.
  eexists. split; [vm_compute; reflexivity|].
  apply (no_ihs_line_without_duration Sample.calc
           {| routeId := "skilled-worker-visa"; applyFrom := "outside_uk";
              duration := 0; applicants := Some 1%Z; dependants := Some 0%Z;
              addPriority := None; addSuperPriority := None |});
    [vm_compute; reflexivity | simpl; lia].
Defined.

(** *** The surcharge as a function of the duration *)

Lemma inject_Z_le (a b : Z) : (a <= b)%Z -> (inject_Z a <= inject_Z b)%Q.
Proof. intros H. unfold Qle. simpl. lia. Qed.

Lemma ceil_div_6_monotone m m' : (m <= m')%Z -> (ceil_div m 6 <= ceil_div m' 6)%Z.
Proof.
  pose proof (ceil_div_6_bounds m). pose proof (ceil_div_6_bounds m'). lia.
Qed.

(** X18.  The surcharge moves in half-year steps: two durations in the same
    block of six months ([6 (k - 1) < m <= 6 k]) cost the same, and for a
    rate and a head count that are not negative a longer stay never costs
    less. *)
Theorem ihs_in_half_year_steps c route a d m m' :
  (forall k, (6 * (k - 1) < m <= 6 * k)%Z -> (6 * (k - 1) < m' <= 6 * k)%Z ->
     calculateIHS c route m a d = calculateIHS c route m' a d)
  /\ ((0 <= rate_for c route)%Q -> (0 <= a + d)%Z -> (m <= m')%Z ->
      (calculateIHS c route m a d <= calculateIHS c route m' a d)%Q).
Proof.
  rewrite !calculateIHS_formula. split.
  - intros k H H'.
    rewrite (ceil_div_6_unique m k H), (ceil_div_6_unique m' k H').
    reflexivity.
  - intros Hrate Hn Hm.
    apply Qmult_le_compat_r; [|exact (inject_Z_le 0 _ Hn)].
    rewrite !(Qmult_comm (rate_for c route)).
    apply Qmult_le_compat_r; [|exact Hrate].
    apply Qmult_le_compat_r; [|discriminate].
    apply inject_Z_le, ceil_div_6_monotone, Hm.
Qed.

(** *** Amounts that are not negative *)

(** No amount of the fee table is negative. *)
Definition nonnegative_fees (fees : gmap string Fee) : Prop :=
  forall key fee, fees !! key = Some fee ->
    (0 <= to_number (amount_inside_uk fee))%Q
    /\ (0 <= to_number (amount_outside_uk fee))%Q.

Lemma getFeeAmount_nonnegative c feeKey applyFrom :
  nonnegative_fees (fees c) ->
  (0 <= to_number (getFeeAmount c feeKey applyFrom))%Q.
Proof.
  intros H. unfold getFeeAmount.
  destruct (fees c !! feeKey) as [fee|] eqn:E; [|apply Qle_refl].
  destruct (H feeKey fee E) as [Hi Ho].
  unfold JS.or_else. repeat case_match; simpl; auto; apply Qle_refl.
Qed.

Lemma sum_nonnegative (l : list LineItem) (start : Q) :
  (0 <= start)%Q -> (forall it, In it l -> (0 <= amount it)%Q) ->
  (0 <= fold_left (fun s it => s + amount it) l start)%Q.
Proof.
  revert start. induction l as [|it l IH]; intros start Hs Hl; simpl; [exact Hs|].
  apply IH; [|intros; apply Hl; right; assumption].
  rewrite <- (Qplus_0_l 0). apply Qplus_le_compat; [exact Hs|].
  apply Hl. left. reflexivity.
Qed.

(** The total of a call that returns, from the invariant of its locals. *)
Lemma calculate_total c p r :
  calculate c p = Return r -> total r = sum_amounts (breakdown r).
Proof.
  intros (route & a3 & a4 & a5 & _ & H3 & H4 & H5 & ->)%calculate_Return.
  simpl. apply life_in_uk_step_consistent.
  eapply ceremony_step_consistent; [exact H5|].
  eapply super_priority_step_consistent; [exact H4|].
  eapply priority_step_consistent; [exact H3|].
  apply ihs_step_consistent, application_step_consistent, empty_consistent.
Qed.

(** X19.  With a fee table that holds no negative amount and a head count
    that is not negative, no line of a returned breakdown is negative and
    neither is the total, whatever the rates are: a surcharge that is not
    positive is left out. *)
Theorem amounts_are_nonnegative c p r :
  nonnegative_fees (fees c) ->
  (0 <= applicants_of p + dependants_of p)%Z ->
  calculate c p = Return r ->
  (forall it, In it (breakdown r) -> (0 <= amount it)%Q) /\ (0 <= total r)%Q.
Proof.
  intros Hfees Hn Hc.
  assert (0 <= inject_Z (totalApplicants p))%Q as Hq
    by exact (inject_Z_le 0 _ Hn).
  assert (forall it, In it (breakdown r) -> (0 <= amount it)%Q) as Hall.
  { destruct (calculate_Return c p r Hc) as (route & _ & _ & _ & Hr & _).
    rewrite (calculate_breakdown c p r route Hr Hc).
    intros it. rewrite !in_app_iff.
    unfold application_lines, application_step, ihs_lines, ihs_step,
      priority_lines, priority_step, getPriorityFee,
      super_priority_lines, super_priority_step, getSuperPriorityFee,
      ceremony_lines, ceremony_step, life_in_uk_lines, life_in_uk_step.
    intros [Hin|[Hin|[Hin|[Hin|[Hin|Hin]]]]]; revert Hin;
      repeat case_match; simpl; intros Hin;
      try (destruct Hin as [<-|[]]; simpl); try destruct Hin;
      first [ apply Qlt_le_weak, ltb_lt; assumption
            | apply Qmult_le_0_compat; [|exact Hq];
              first [ apply getFeeAmount_nonnegative, Hfees
                    | eapply Hfees; eassumption
                    | discriminate ] ]. }
  split; [exact Hall|].
  rewrite (calculate_total c p r Hc). apply sum_nonnegative; [apply Qle_refl|].
  exact Hall.
Qed.

Lemma sample_fees_nonnegative : nonnegative_fees (fees Sample.calc).
Proof.
  intros key fee H. apply elem_of_list_to_map_2, list_elem_of_In in H.
  simpl in H.
  repeat (destruct H as [[= <- <-]|H]; [split; discriminate|]).
  destruct H.
Defined.

Lemma amounts_are_nonnegative_witness :
  exists r, calculate Sample.calc Sample.request_priority = Return r
    /\ (forall it, In it (breakdown r) -> (0 <= amount it)%Q)
    /\ (0 <= total r)%Q.
Proof.
  eexists. split; [vm_compute; reflexivity|].
  apply (amounts_are_nonnegative Sample.calc Sample.request_priority);
    [exact sample_fees_nonnegative
    | unfold applicants_of, dependants_of; simpl; lia
    | vm_compute; reflexivity].
Defined.

(** *** Tables that passed the validation script *)

Lemma selected_fee_key_In word feeItems key :
  selected_fee_key word feeItems key -> In key feeItems.
Proof.
  intros [(pre & post & -> & _) | [H _]].
  - apply in_or_app. right. left. reflexivity.
  - destruct feeItems; [discriminate|]. injection H as ->. left. reflexivity.
Qed.

(** X20.  On tables for which step 3 of the validation script finds no
    missing fee, a route with a non-empty [fee_items] list of non-empty
    keys always gets its application fee billed: the first line of a
    returned breakdown is the application fee line. *)
Theorem validated_route_bills_application_fee c p r route feeItems :
  Validate.missingFees (routes c) (fees c) = [] ->
  find_route c (routeId p) = Some route ->
  fee_items route = Some feeItems ->
  feeItems <> [] ->
  ~ In "" feeItems ->
  calculate c p = Return r ->
  exists cost,
    head (breakdown r)
    = Some (mkItem (application_label (totalApplicants p)) cost).
Proof.
  intros Hv Hr Hf Hne Hkeys Hc.
  destruct (getFeeKey_selected route (applyFrom p) feeItems Hf Hne)
    as (feeKey & Hk & Hsel%selected_fee_key_In).
  assert (is_Some (fees c !! feeKey)) as Hfee.
  { apply (proj1 (ValidateChecks.missingFees_nil (routes c) (fees c)) Hv
             route feeItems feeKey); [|exact Hf|exact Hsel].
    unfold find_route in Hr. apply find_some in Hr. apply Hr. }
  rewrite (calculate_breakdown c p r route Hr Hc),
    (application_lines_spec c route p feeKey Hk).
  rewrite bool_decide_eq_true_2 by exact Hfee.
  destruct feeKey; [contradiction|]. simpl. eexists. reflexivity.
Qed.

Lemma validated_route_bills_application_fee_witness :
  exists r, calculate Sample.calc Sample.request = Return r
    /\ exists cost,
         head (breakdown r) = Some (mkItem (application_label (1 + 0)) cost).
Proof.
  eexists. split; [vm_compute; reflexivity|].
  apply (validated_route_bills_application_fee Sample.calc Sample.request _
           Sample.skilled_worker
           ["skilled_worker_outside"; "skilled_worker_inside"]);
    try (vm_compute; reflexivity); [discriminate|].
  simpl. intros [H|[H|[]]]; discriminate.
Defined.

End CalculatorShape.

(** ** The form *)

Module FormFacts.
Import JS Calculator CalculatorFacts Form.
Local Open Scope list_scope.

(** *** [parseInt] reads back what a template literal writes *)

Lemma digit_value_char (d : N) :
  (d < 10)%N -> digit_value 10 (pretty_N_char d) = Some (Z.of_N d).
Proof.
  intros H.
  assert (d = 0 \/ d = 1 \/ d = 2 \/ d = 3 \/ d = 4 \/ d = 5 \/ d = 6
          \/ d = 7 \/ d = 8 \/ d = 9)%N as Hd by lia.
  repeat (destruct Hd as [-> | Hd]; [reflexivity|]). subst. reflexivity.
Qed.

Lemma read_digits_pretty (x : N) (s : string) :
  read_digits 10 (pretty_N_go x s) None
  = read_digits 10 s (if (x =? 0)%N then None else Some (Z.of_N x)).
Proof.
  revert s. induction (N.lt_wf_0 x) as [x _ IH]; intros s.
  destruct (N.eqb_spec x 0) as [->|Hx]; [rewrite pretty_N_go_0; reflexivity|].
  rewrite pretty_N_go_step by lia.
  rewrite IH by (apply N.div_lt; lia). cbn [read_digits].
  rewrite digit_value_char by (apply N.mod_lt; lia).
  f_equal. f_equal.
  pose proof (N.div_mod x 10 ltac:(lia)) as E.
  destruct (N.eqb_spec (x / 10) 0) as [E0|E0];
    cbn -[N.div N.modulo Z.of_N Z.mul Z.add]; lia.
Qed.

(** The first character of a positive number's digits is [1] to [9]. *)
Lemma pretty_leading_digit (x : N) (s : string) :
  (0 < x)%N ->
  exists d rest, (1 <= d <= 9)%N /\ pretty_N_go x s = String (pretty_N_char d) rest.
Proof.
  revert s. induction (N.lt_wf_0 x) as [x _ IH]; intros s Hx.
  rewrite pretty_N_go_step by exact Hx.
  destruct (N.eqb_spec (x / 10) 0) as [E0|E0].
  - rewrite E0, pretty_N_go_0. exists (x mod 10)%N, s. split; [|reflexivity].
    pose proof (N.div_mod x 10 ltac:(lia)). pose proof (N.mod_lt x 10 ltac:(lia)).
    lia.
  - apply IH; [apply N.div_lt; lia | apply N.neq_0_lt_0, E0].
Qed.

Lemma parseInt_leading_digit (d : N) (rest : string) :
  (1 <= d <= 9)%N ->
  let s := String (pretty_N_char d) rest in
  parseInt s = read_digits 10 s None
  /\ parseInt (String "-" s)
     = match read_digits 10 s None with
       | Some n => Some (-1 * n)%Z
       | None => None
       end.
Proof.
  intros H.
  assert (d = 1 \/ d = 2 \/ d = 3 \/ d = 4 \/ d = 5 \/ d = 6
          \/ d = 7 \/ d = 8 \/ d = 9)%N as Hd by lia.
  assert (forall o : option Z,
            match o with Some n => Some (1 * n)%Z | None => None end = o) as One
    by (intros [n|]; [rewrite Z.mul_1_l|]; reflexivity).
  repeat (destruct Hd as [-> | Hd];
          [split; [apply One | reflexivity]|]).
  subst. split; [apply One | reflexivity].
Qed.

Lemma show_pos (p : positive) : show (Z.pos p) = pretty_N_go (N.pos p) "".
Proof. reflexivity. Qed.

Lemma show_neg (p : positive) :
  show (Z.neg p) = String "-" (pretty_N_go (N.pos p) "").
Proof. reflexivity. Qed.

(** [parseInt(String(n))] is [n], for every integer [n]. *)
Lemma parseInt_show (n : Z) : parseInt (show n) = Some n.
Proof.
  destruct n as [|p|p]; [reflexivity| |].
  - rewrite show_pos.
    destruct (pretty_leading_digit (N.pos p) "" ltac:(lia)) as (d & rest & Hd & E).
    rewrite E. destruct (parseInt_leading_digit d rest Hd) as [-> _].
    rewrite <- E, read_digits_pretty. reflexivity.
  - rewrite show_neg.
    destruct (pretty_leading_digit (N.pos p) "" ltac:(lia)) as (d & rest & Hd & E).
    rewrite E. destruct (parseInt_leading_digit d rest Hd) as [_ ->].
    rewrite <- E, read_digits_pretty. reflexivity.
Qed.

(** *** What [handleCalculate] checks *)

Definition no_location (d : dom) : bool :=
  negb (truthy_string (default "" (apply_from_value d))).
Definition bad_duration (d : dom) : bool :=
  bool_decide (is_Some (duration_value d))
  && below (parse_value (duration_value d) 0) 1.
Definition bad_applicants (d : dom) : bool :=
  outside (parse_value (applicants_value d) 1) 1 10.
Definition bad_dependants (d : dom) : bool :=
  outside (parse_value (dependants_value d) 0) 0 10.

Definition location_message : string :=
  "Please select where you are applying from.".
Definition duration_message : string :=
  "Please enter a valid visa duration (at least 1 month).".
Definition applicants_message : string :=
  "Number of main applicants must be between 1 and 10.".
Definition dependants_message : string :=
  "Number of dependants must be between 0 and 10.".

(** The messages of the rules that a document violates, in the order of the
    checks. *)
Definition messages (d : dom) : list string :=
  (if no_location d then [location_message] else [])
  ++ (if bad_duration d then [duration_message] else [])
  ++ (if bad_applicants d then [applicants_message] else [])
  ++ (if bad_dependants d then [dependants_message] else []).

(** The parameters built from a document. *)
Definition params_of (routeId : string) (d : dom) : Params :=
  {| Calculator.routeId := routeId;
     applyFrom := default "" (apply_from_value d);
     duration := default 0%Z (parse_value (duration_value d) 0);
     applicants := parse_value (applicants_value d) 1;
     dependants := parse_value (dependants_value d) 0;
     addPriority := Some (default false (add_priority_checked d));
     addSuperPriority := Some (default false (add_super_priority_checked d)) |}.

Lemma handleCalculate_messages c routeId d :
  handleCalculate c routeId d
  = if (0 <? length (messages d))%nat
    then Rejected (messages d)
    else Calculated (params_of routeId d) (calculate c (params_of routeId d)).
Proof.
  unfold handleCalculate, messages, params_of.
  fold (no_location d). fold (bad_duration d).
  fold (bad_applicants d). fold (bad_dependants d).
  destruct (no_location d), (bad_duration d), (bad_applicants d),
    (bad_dependants d); reflexivity.
Qed.

Lemma In_messages d :
  (In location_message (messages d) <-> no_location d = true)
  /\ (In duration_message (messages d) <-> bad_duration d = true)
  /\ (In applicants_message (messages d) <-> bad_applicants d = true)
  /\ (In dependants_message (messages d) <-> bad_dependants d = true).
Proof.
  unfold messages.
  destruct (no_location d), (bad_duration d), (bad_applicants d),
    (bad_dependants d); simpl;
    repeat split; intros; try tauto; try discriminate;
    repeat match goal with
           | H : _ \/ _ |- _ => destruct H
           | H : False |- _ => destruct H
           | H : _ = _ |- _ => discriminate H
           end.
Qed.

Lemma messages_nil d :
  messages d = []
  <-> no_location d = false /\ bad_duration d = false
      /\ bad_applicants d = false /\ bad_dependants d = false.
Proof.
  unfold messages.
  destruct (no_location d), (bad_duration d), (bad_applicants d),
    (bad_dependants d); simpl; split; intros; try discriminate;
    intuition discriminate.
Qed.

Lemma no_location_iff d :
  no_location d = true
  <-> apply_from_value d = None \/ apply_from_value d = Some "".
Proof.
  unfold no_location.
  destruct (apply_from_value d) as [[|a s]|]; simpl; split; intros;
    try discriminate; intuition congruence.
Qed.

Lemma below_iff (x : option Z) (bound : Z) :
  below x bound = true <-> forall n, x = Some n -> (n < bound)%Z.
Proof.
  destruct x as [n|]; simpl.
  - rewrite Z.ltb_lt. split; [intros H ? [= <-]; exact H | auto].
  - split; [intros _ ? [=] | reflexivity].
Qed.

Lemma outside_iff (x : option Z) (lo hi : Z) :
  outside x lo hi = true <-> forall n, x = Some n -> (n < lo \/ hi < n)%Z.
Proof.
  destruct x as [n|]; simpl.
  - rewrite orb_true_iff, !Z.ltb_lt. split; [intros H ? [= <-]; exact H | auto].
  - split; [intros _ ? [=] | reflexivity].
Qed.

Lemma within_iff (x : option Z) (lo hi : Z) :
  outside x lo hi = false <-> exists n, x = Some n /\ (lo <= n <= hi)%Z.
Proof.
  destruct x as [n|]; simpl.
  - rewrite orb_false_iff, !Z.ltb_ge. split.
    + intros H. exists n. split; [reflexivity | lia].
    + intros (? & [= <-] & H). lia.
  - split; [discriminate | intros (? & [=] & _)].
Qed.

(** X21.  [handleCalculate] calls [calculate] only for a document that
    passes all four checks, and then with the values it read: a location
    that is not empty, a duration of at least 1 when there is a duration
    control (0 when there is none), 1 to 10 applicants and 0 to 10
    dependants.  Otherwise it shows a list that is not empty and holds the
    message of every violated rule and of no other. *)
Theorem handleCalculate_validates c routeId d :
  match handleCalculate c routeId d with
  | Rejected errors =>
      errors <> []
      /\ (In location_message errors
            <-> apply_from_value d = None \/ apply_from_value d = Some "")
      /\ (In duration_message errors
            <-> is_Some (duration_value d)
                /\ forall n, parse_value (duration_value d) 0 = Some n ->
                     (n < 1)%Z)
      /\ (In applicants_message errors
            <-> forall n, parse_value (applicants_value d) 1 = Some n ->
                  (n < 1 \/ 10 < n)%Z)
      /\ (In dependants_message errors
            <-> forall n, parse_value (dependants_value d) 0 = Some n ->
                  (n < 0 \/ 10 < n)%Z)
  | Calculated params o =>
      o = calculate c params
      /\ Calculator.routeId params = routeId
      /\ apply_from_value d = Some (applyFrom params) /\ applyFrom params <> ""
      /\ (match duration_value d with
          | Some _ => parse_value (duration_value d) 0 = Some (duration params)
                      /\ (1 <= duration params)%Z
          | None => duration params = 0%Z
          end)
      /\ (exists n, applicants params = Some n
                    /\ parse_value (applicants_value d) 1 = Some n
                    /\ (1 <= n <= 10)%Z)
      /\ (exists n, dependants params = Some n
                    /\ parse_value (dependants_value d) 0 = Some n
                    /\ (0 <= n <= 10)%Z)
  end.
Proof.
  rewrite handleCalculate_messages.
  destruct (In_messages d) as (L1 & L2 & L3 & L4).
  pose proof (messages_nil d) as N.
  destruct (messages d) as [|m ms]; simpl.
  - destruct (proj1 N eq_refl) as (H1 & H2 & H3 & H4).
    split; [reflexivity|]. split; [reflexivity|].
    assert (exists af, apply_from_value d = Some af /\ af <> "") as (af & Ea & Hne).
    { unfold no_location in H1.
      destruct (apply_from_value d) as [[|a s]|]; try discriminate.
      eexists. split; [reflexivity | discriminate]. }
    rewrite Ea. simpl. split; [reflexivity|]. split; [exact Hne|].
    split.
    + unfold bad_duration in H2.
      destruct (duration_value d) as [v|] eqn:Ev; [|reflexivity].
      rewrite bool_decide_eq_true_2 in H2 by eauto. cbn [andb] in H2.
      destruct (parse_value (Some v) 0) as [n|]; [|discriminate].
      simpl in *. apply Z.ltb_ge in H2. auto.
    + apply within_iff in H3 as (a & -> & Ha).
      apply within_iff in H4 as (n & -> & Hn). eauto 10.
  - split; [discriminate|].
    rewrite L1, L2, L3, L4, no_location_iff.
    unfold bad_duration, bad_applicants, bad_dependants.
    rewrite andb_true_iff, bool_decide_eq_true, below_iff, !outside_iff.
    tauto.
Qed.

(** *** The form that [renderForm] writes *)

(** The entry [renderForm] finds for an identifier. *)
Definition entry_of (routes : list RouteEntry) (routeId : string)
    : option RouteEntry :=
  find (fun r => bool_decide (route_id (entry_route r) = Some routeId)) routes.

Lemma renderForm_entry routes routeId f :
  renderForm routes routeId = Some f ->
  exists entry,
    entry_of routes routeId = Some entry
    /\ duration_control f
       = match (if bool_decide (duration_policy (entry_route entry) = Some "fixed")
                then duration_options entry else None) with
         | Some options => Some (Select (map show options))
         | None =>
             if bool_decide (duration_policy (entry_route entry) = Some "custom")
             then Some (NumberInput "1" (show (max_or_60 entry)) "12")
             else if bool_decide (duration_policy (entry_route entry)
                                  = Some "permanent")
             then Some (Hidden "0")
             else None
         end.
Proof.
  unfold renderForm, entry_of.
  destruct (find _ routes) as [entry|]; [|discriminate].
  intros [= <-]. exists entry. split; reflexivity.
Qed.

Lemma find_route_calculator_of routes fees rules routeId :
  find_route (calculator_of routes fees rules) routeId
  = option_map entry_route (entry_of routes routeId).
Proof.
  unfold find_route, calculator_of, entry_of. simpl.
  induction routes as [|entry routes IH]; simpl; [reflexivity|].
  case_bool_decide; [reflexivity | exact IH].
Qed.

Lemma handleCalculate_Rejected c routeId d :
  bad_duration d = true ->
  exists errors,
    handleCalculate c routeId d = Rejected errors /\ In duration_message errors.
Proof.
  intros H. rewrite handleCalculate_messages.
  apply (proj2 (proj1 (proj2 (In_messages d)))) in H.
  destruct (messages d) as [|m ms]; [destruct H|].
  simpl. eauto.
Qed.

Lemma handleCalculate_Calculated c routeId d params o :
  handleCalculate c routeId d = Calculated params o ->
  params = params_of routeId d /\ o = calculate c params
  /\ bad_duration d = false.
Proof.
  rewrite handleCalculate_messages.
  pose proof (messages_nil d) as N.
  destruct (messages d) as [|m ms]; simpl; [|discriminate].
  intros [= <- <-]. destruct (proj1 N eq_refl) as (_ & H & _). auto.
Qed.

(** X22.  A route whose duration policy is [permanent] cannot be calculated
    from its form: [renderForm] gives it a hidden duration of [0], which
    [handleCalculate] rejects as below one month, whatever the other
    controls hold. *)
Theorem permanent_route_is_always_rejected c routes routeId entry f d :
  entry_of routes routeId = Some entry ->
  duration_policy (entry_route entry) = Some "permanent" ->
  renderForm routes routeId = Some f ->
  shows f d ->
  exists errors,
    handleCalculate c routeId d = Rejected errors /\ In duration_message errors.
Proof.
  intros He Hp Hf (_ & Hd & _).
  destruct (renderForm_entry routes routeId f Hf) as (entry' & He' & Hc).
  rewrite He in He'. injection He' as <-.
  rewrite Hp in Hc. simpl in Hc. rewrite Hc in Hd.
  apply handleCalculate_Rejected. unfold bad_duration.
  destruct (duration_value d) as [v|]; [|destruct Hd].
  simpl in Hd. subst v. reflexivity.
Qed.

(** X23.  A form that [renderForm] wrote for an identifier never runs into
    [Error("Route not found")]: when [handleCalculate] calls [calculate]
    for that identifier on the same routes, the route is found. *)
Theorem rendered_form_finds_its_route routes fees rules routeId f d params o :
  renderForm routes routeId = Some f ->
  handleCalculate (calculator_of routes fees rules) routeId d
  = Calculated params o ->
  o <> Throw (Error "Route not found").
Proof.
  intros Hf Hh.
  destruct (renderForm_entry routes routeId f Hf) as (entry & He & _).
  apply handleCalculate_Calculated in Hh as (-> & -> & _).
  pose proof (find_route_calculator_of routes fees rules routeId) as Hr.
  rewrite He in Hr. simpl in Hr.
  destruct (calculate_known_route_cases (calculator_of routes fees rules)
              (params_of routeId d) (entry_route entry) Hr) as [[r ->] | ->];
    discriminate.
Qed.

(** X24.  For a route with the [fixed] duration policy and a list of
    duration options, the duration that reaches [calculate] is one of the
    route's options and at least one month: the option values written by
    [renderForm] are read back unchanged by [handleCalculate]. *)
Theorem fixed_duration_is_an_option c routes routeId entry options f d params o :
  entry_of routes routeId = Some entry ->
  duration_policy (entry_route entry) = Some "fixed" ->
  duration_options entry = Some options ->
  renderForm routes routeId = Some f ->
  shows f d ->
  handleCalculate c routeId d = Calculated params o ->
  In (duration params) options /\ (1 <= duration params)%Z.
Proof.
  intros He Hp Ho Hf (_ & Hd & _) Hh.
  destruct (renderForm_entry routes routeId f Hf) as (entry' & He' & Hc).
  rewrite He in He'. injection He' as <-.
  rewrite Hp, Ho in Hc. simpl in Hc. rewrite Hc in Hd.
  apply handleCalculate_Calculated in Hh as (-> & _ & Hb).
  unfold bad_duration in Hb. simpl.
  destruct (duration_value d) as [v|]; [|destruct Hd].
  rewrite bool_decide_eq_true_2 in Hb by eauto. cbn [andb] in Hb.
  simpl in Hd. destruct Hd as [Hv | [_ ->]]; [|discriminate Hb].
  apply in_map_iff in Hv as (n & <- & Hn).
  assert (parse_value (Some (show n)) 0 = Some n) as E.
  { unfold parse_value.
    destruct (show n) eqn:S; rewrite <- ?S; [|apply parseInt_show].
    pose proof (parseInt_show n) as P. rewrite S in P. discriminate P. }
  rewrite E in Hb |- *. simpl in *. apply Z.ltb_ge in Hb. auto.
Qed.

(** X25.  When [renderForm] writes no duration control (the policy is
    [fixed] without duration options, or none of [fixed], [custom] and
    [permanent]), [handleCalculate] passes a duration of 0 without any
    check, and the returned breakdown has no Immigration Health Surcharge
    line, whatever the route's IHS policy. *)
Theorem no_duration_control_no_surcharge c routes routeId f d params r :
  renderForm routes routeId = Some f ->
  duration_control f = None ->
  shows f d ->
  handleCalculate c routeId d = Calculated params (Return r) ->
  duration params = 0%Z
  /\ forall it, In it (breakdown r) ->
       item it <> "Immigration Health Surcharge".
Proof.
  intros Hf Hn (_ & Hd & _) Hh.
  rewrite Hn in Hd.
  apply handleCalculate_Calculated in Hh as (-> & Hc & _).
  destruct (duration_value d) as [v|] eqn:Ev; [destruct Hd|].
  assert (duration (params_of routeId d) = 0%Z) as E0
    by (unfold params_of; rewrite Ev; reflexivity).
  split; [exact E0|].
  intros it Hin L. symmetry in Hc.
  destruct (calculate_Return _ _ r Hc) as (route & _ & _ & _ & Hr & _).
  destruct (labelled_line _ _ r route it Hr Hc) as ([H _] & _).
  specialize (H (conj Hin L)).
  rewrite CalculatorShape.ihs_lines_without_duration in H by (rewrite E0; lia).
  destruct H.
Qed.

(** *** Sample forms *)

(** A Skilled Worker route whose [fixed] policy comes without options. *)
Definition worker_without_options : Route :=
  {| route_id := Some "skilled-worker-fixed";
     name := name Sample.skilled_worker;
     category := category Sample.skilled_worker;
     indexable := indexable Sample.skilled_worker;
     apply_from_options := Some "outside_uk";
     duration_policy := Some "fixed";
     ihs_policy := ihs_policy Sample.skilled_worker;
     fee_items := fee_items Sample.skilled_worker;
     extras_supported := extras_supported Sample.skilled_worker;
     last_reviewed := last_reviewed Sample.skilled_worker |}.

Definition entries : list RouteEntry :=
  [mkEntry Sample.skilled_worker None (Some 60%Z);
   mkEntry Sample.student None None;
   mkEntry Sample.visitor (Some [6%Z; 24%Z]) None;
   mkEntry Sample.citizenship None None;
   mkEntry worker_without_options None None].

Definition sample_calculator : Calculator.t :=
  calculator_of entries Sample.fee_table Sample.rule_table.

(** The citizenship form with one applicant. *)
Definition citizenship_dom : dom :=
  {| apply_from_value := Some "inside_uk"; duration_value := Some "0";
     applicants_value := Some "1"; dependants_value := Some "0";
     add_priority_checked := None; add_super_priority_checked := None |}.

(** The visitor form with the six-month option chosen. *)
Definition visitor_dom : dom :=
  {| apply_from_value := Some "outside_uk"; duration_value := Some "6";
     applicants_value := Some "2"; dependants_value := Some "1";
     add_priority_checked := None; add_super_priority_checked := None |}.

(** The form of the route without duration options. *)
Definition worker_dom : dom :=
  {| apply_from_value := Some "outside_uk"; duration_value := None;
     applicants_value := Some "1"; dependants_value := Some "";
     add_priority_checked := Some true;
     add_super_priority_checked := Some false |}.

Ltac shows_form :=
  unfold shows, holds_opt, holds; simpl;
  repeat match goal with
         | |- _ /\ _ => split
         | |- _ <-> _ => split
         | |- is_Some _ -> _ => intros [? ?]
         end; eauto; try discriminate.

Lemma permanent_route_is_always_rejected_witness :
  exists errors,
    handleCalculate sample_calculator "british-citizenship" citizenship_dom
    = Rejected errors
    /\ In duration_message errors.
Proof.
  eapply (permanent_route_is_always_rejected sample_calculator entries
            "british-citizenship" (mkEntry Sample.citizenship None None) _
            citizenship_dom); [reflexivity | reflexivity | reflexivity |].
  shows_form.
Defined.

Lemma rendered_form_finds_its_route_witness :
  exists params o,
    handleCalculate sample_calculator "standard-visitor-visa" visitor_dom
    = Calculated params o
    /\ o <> Throw (Error "Route not found").
Proof.
  eexists _, _. split; [reflexivity|].
  eapply (rendered_form_finds_its_route entries Sample.fee_table
            Sample.rule_table "standard-visitor-visa" _ visitor_dom);
    reflexivity.
Defined.

Lemma fixed_duration_is_an_option_witness :
  exists params o,
    handleCalculate sample_calculator "standard-visitor-visa" visitor_dom
    = Calculated params o
    /\ In (duration params) [6%Z; 24%Z] /\ (1 <= duration params)%Z.
Proof.
  eexists _, _. split; [reflexivity|].
  eapply (fixed_duration_is_an_option sample_calculator entries
            "standard-visitor-visa" (mkEntry Sample.visitor (Some [6%Z; 24%Z]) None)
            [6%Z; 24%Z] _ visitor_dom);
    [reflexivity | reflexivity | reflexivity | reflexivity | | reflexivity].
  shows_form.
Defined.

Lemma no_duration_control_no_surcharge_witness :
  exists params r,
    handleCalculate sample_calculator "skilled-worker-fixed" worker_dom
    = Calculated params (Return r)
    /\ ihs_policy worker_without_options = Some "required"
    /\ duration params = 0%Z
    /\ forall it, In it (breakdown r) ->
         item it <> "Immigration Health Surcharge".
Proof.
  eexists _, _. split; [vm_compute; reflexivity|]. split; [reflexivity|].
  eapply (no_duration_control_no_surcharge sample_calculator entries
            "skilled-worker-fixed" _ worker_dom);
    [reflexivity | reflexivity | | vm_compute; reflexivity].
  shows_form.
Defined.

End FormFacts.
